(** * Car ranking system: the in-memory query pipeline

    A shallow embedding of [DSA_main.py] (class [CarRankingSystem]) and of
    the simpler variant [code.py], with the properties of the ranking
    engine, the record normalizer, the filter engine, the load operation
    and the summary statistics.

    Output written with [print] is left out throughout, together with the
    values that are computed for printing only. *)

From Stdlib Require Import ZArith QArith List Sorted Permutation Lia Bool.
From Stdlib Require Import String Ascii SpecFloat.
From stdpp Require Import base option list sorting strings pretty gmap.

Open Scope Z_scope.

(** * Part I: the program *)

(** ** Exceptions *)

Inductive exn :=
| ValueError | TypeError | OverflowError | ZeroDivisionError
| KeyError | EOFError | SystemExit.

Inductive result (A : Type) :=
| Ok (a : A)
| Raise (e : exn).
Arguments Ok {A} a.
Arguments Raise {A} e.

#[export] Instance result_ret : MRet result := @Ok.
#[export] Instance result_bind : MBind result := fun A B f r =>
  match r with
  | Ok a => f a
  | Raise e => Raise e
  end.

(** ** Python values that occur in a raw row

    [csv.DictReader] yields a dictionary from column names to strings; a row
    shorter than the header has [None] for the columns it lacks.  [PInt] is
    there for the integer defaults handed to [dict.get] and for the fields
    that [code.py] overwrites with integers. *)

Inductive pyval :=
| PStr (s : string)
| PInt (z : Z)
| PNone.

(** Any such value can be the key of a dictionary. *)

#[export] Instance pyval_eq_dec : EqDecision pyval.
Proof. solve_decision. Defined.

Definition pyval_encode (v : pyval) : string + Z + unit :=
  match v with
  | PStr s => inl (inl s)
  | PInt z => inl (inr z)
  | PNone => inr tt
  end.

Definition pyval_decode (x : string + Z + unit) : pyval :=
  match x with
  | inl (inl s) => PStr s
  | inl (inr z) => PInt z
  | inr _ => PNone
  end.

#[export] Instance pyval_countable : Countable pyval.
Proof.
  apply (inj_countable' pyval_encode pyval_decode).
  intros []; reflexivity.
Defined.

Abbreviation row := (gmap string pyval).

(** [row.get(key, default)] *)
Definition get (r : row) (key : string) (default : pyval) : pyval :=
  match r !! key with
  | Some v => v
  | None => default
  end.

(** [row[key]] *)
Definition getitem (r : row) (key : string) : result pyval :=
  match r !! key with
  | Some v => Ok v
  | None => Raise KeyError
  end.

(** ** Floats

    A Python float is an IEEE 754 binary64 number: [spec_float] at precision
    53 and maximal exponent 1024. *)

Abbreviation float := spec_float.
Definition prec : Z := 53.
Definition emax : Z := 1024.

Definition float_zero : float := S754_zero false.

(** Conversion of a Python integer to float: rounding to nearest even,
    [OverflowError] beyond the largest finite float. *)
Definition float_of_int (z : Z) : result float :=
  match binary_normalize prec emax z 0 false with
  | S754_infinity _ => Raise OverflowError
  | f => Ok f
  end.

(** [int(f)]: truncation towards zero. *)
Definition int_of_float (f : float) : result Z :=
  match f with
  | S754_nan => Raise ValueError
  | S754_infinity _ => Raise OverflowError
  | S754_zero _ => Ok 0
  | S754_finite s m e => Ok (cond_Zopp s (Z.shiftl (Z.pos m) e))
  end.

(** [f < g], [f == g] on floats. *)
Definition float_lt (f g : float) : bool := SFltb f g.
Definition float_eq (f g : float) : bool := SFeqb f g.

(** The place of a float in the order of [<]: its class (negative
    infinity, negative, zero, positive, positive infinity), then exponent
    and mantissa, both counted downwards for a negative float. *)
Definition float_class (f : float) : Z :=
  match f with
  | S754_infinity true => -2
  | S754_finite true _ _ => -1
  | S754_finite false _ _ => 1
  | S754_infinity false => 2
  | _ => 0
  end.

Definition float_exponent (f : float) : Z :=
  match f with
  | S754_finite s _ e => cond_Zopp s e
  | _ => 0
  end.

Definition float_mantissa (f : float) : Z :=
  match f with
  | S754_finite s m _ => cond_Zopp s (Z.pos m)
  | _ => 0
  end.

Definition float_before (f g : float) : Prop :=
  float_class f < float_class g \/
  (float_class f = float_class g /\
   (float_exponent f < float_exponent g \/
    (float_exponent f = float_exponent g /\
     float_mantissa f < float_mantissa g))).

Definition float_same (f g : float) : Prop :=
  float_class f = float_class g /\
  float_exponent f = float_exponent g /\
  float_mantissa f = float_mantissa g.

(** [z <= f] for an integer [z] and a float [f]; Python compares the two
    exactly, without rounding [z]. *)
Definition int_le_float (z : Z) (f : float) : bool :=
  match f with
  | S754_nan => false
  | S754_infinity s => negb s
  | S754_zero _ => z <=? 0
  | S754_finite s m e =>
      if 0 <=? e
      then z <=? cond_Zopp s (Z.pos m * 2 ^ e)
      else z * 2 ^ (- e) <=? cond_Zopp s (Z.pos m)
  end.

(** [x / y] on floats; Python raises where IEEE 754 divides by zero. *)
Definition float_div (x y : float) : result float :=
  match y with
  | S754_zero _ => Raise ZeroDivisionError
  | _ => Ok (SFdiv prec emax x y)
  end.

(** [a / b] on integers.  The quotient is kept as an exact rational number;
    Python rounds it to the nearest float. *)
Definition int_truediv (a b : Z) : result Q :=
  if b =? 0 then Raise ZeroDivisionError
  else Ok (inject_Z a / inject_Z b)%Q.

(** ** Built-in conversions taken as given

    The grammar of [float(s)] and [int(s)] on strings, and the character
    tables behind [str.strip] and [str.lower], are those of the Python
    runtime.  [None] of a parser stands for [ValueError]. *)

Class Builtins := {
  float_of_string : string -> option float;
  int_of_string : string -> option Z;
  str_strip : string -> string;
  str_lower : string -> string
}.

Section Conversions.
Context `{Builtins}.

(** [float(v)] *)
Definition py_float (v : pyval) : result float :=
  match v with
  | PStr s =>
      match float_of_string s with
      | Some f => Ok f
      | None => Raise ValueError
      end
  | PInt z => float_of_int z
  | PNone => Raise TypeError
  end.

(** [int(v)] *)
Definition py_int (v : pyval) : result Z :=
  match v with
  | PStr s =>
      match int_of_string s with
      | Some z => Ok z
      | None => Raise ValueError
      end
  | PInt z => Ok z
  | PNone => Raise TypeError
  end.

(** [str(v)] *)
Definition py_str (v : pyval) : string :=
  match v with
  | PStr s => s
  | PInt z => pretty z
  | PNone => "None"
  end.
End Conversions.

(** ** Records *)

Record car := {
  price : Z;
  brand : string;
  model : string;
  year : Z;
  title_status : string;
  mileage : Z;
  color : string
}.

(** The state of a [CarRankingSystem] object.  [csv_file_path] and
    [ranking_methods] are never assigned after [__init__]. *)

Record CarRankingSystem := {
  cars_data : list car;
  cars_by_brand : gmap string (list car)
}.

(** [CarRankingSystem.__init__] *)
Definition init : CarRankingSystem :=
  {| cars_data := []; cars_by_brand := ∅ |}.

(** ** Record normalizer: [_clean_row_data] *)

Section Normalizer.
Context `{Builtins}.

(** The body of the [try] block. *)
Definition clean_row_body (r : row) : result (option car) :=
  price ← py_float (get r "price" (PInt 0));
  mileage ← py_float (get r "mileage" (PInt 0));
  year ← py_int (get r "year" (PInt 0));
  if float_lt price float_zero || float_lt mileage float_zero
     || (year <? 1900) || (year >? 2025)
  then Ok None
  else
    let brand := str_lower (str_strip (py_str (get r "brand" (PStr "")))) in
    let model := str_strip (py_str (get r "model" (PStr ""))) in
    let color := str_strip (py_str (get r "color" (PStr "unknown"))) in
    let title_status :=
      str_lower (str_strip (py_str (get r "title_status" (PStr "")))) in
    if String.eqb brand "" || String.eqb model ""
    then Ok None
    else
      int_price ← int_of_float price;
      int_mileage ← int_of_float mileage;
      Ok (Some {| price := int_price;
                  brand := brand;
                  model := model;
                  year := year;
                  title_status := title_status;
                  mileage := int_mileage;
                  color := color |}).

(** [except (ValueError, TypeError): return None] *)
Definition _clean_row_data (r : row) : result (option car) :=
  match clean_row_body r with
  | Raise ValueError | Raise TypeError => Ok None
  | outcome => outcome
  end.

(** The text fields as the normalizer cleans them. *)
Definition clean_brand (r : row) : string :=
  str_lower (str_strip (py_str (get r "brand" (PStr "")))).
Definition clean_model (r : row) : string :=
  str_strip (py_str (get r "model" (PStr ""))).
Definition clean_color (r : row) : string :=
  str_strip (py_str (get r "color" (PStr "unknown"))).
Definition clean_title_status (r : row) : string :=
  str_lower (str_strip (py_str (get r "title_status" (PStr "")))).

(** A row as [csv.DictReader] yields it holds no integer. *)
Definition csv_row (r : row) : Prop :=
  forall key z, r !! key <> Some (PInt z).

(** ** Brand index: [_organize_by_brand] *)

Definition add_to_brand (index : gmap string (list car)) (c : car)
    : gmap string (list car) :=
  <[brand c := default [] (index !! brand c) ++ [c]]> index.

Definition _organize_by_brand (self : CarRankingSystem) : CarRankingSystem :=
  {| cars_data := cars_data self;
     cars_by_brand := fold_left add_to_brand (cars_data self) ∅ |}.

(** ** Loading: [load_data]

    The loop over the rows of the file.  It appends to [self.cars_data]
    and counts the skipped rows; an exception other than [ValueError]
    leaves the loop with what has been appended so far. *)

Fixpoint load_rows (data : list car) (skipped_rows : nat) (rows : list row)
    : list car * result nat :=
  match rows with
  | [] => (data, Ok skipped_rows)
  | r :: rest =>
      match _clean_row_data r with
      | Ok (Some cleaned_row) => load_rows (data ++ [cleaned_row]) skipped_rows rest
      | Ok None => load_rows data (S skipped_rows) rest
      | Raise ValueError => load_rows data (S skipped_rows) rest
      | Raise e => (data, Raise e)
      end
  end.

(** [file] is what [open] and [csv.DictReader] give: [None] when the file
    does not exist, else its rows.  The result is the object after the
    call and the returned flag. *)

Definition load_data (self : CarRankingSystem) (file : option (list row))
    : CarRankingSystem * bool :=
  match file with
  | None => (self, false)
  | Some rows =>
      let '(data, outcome) := load_rows (cars_data self) 0 rows in
      let self1 :=
        {| cars_data := data; cars_by_brand := cars_by_brand self |} in
      match outcome with
      | Raise _ => (self1, false)
      | Ok _ =>
          match data with
          | [] => (self1, false)
          | _ :: _ => (_organize_by_brand self1, true)
          end
      end
  end.

(** The rows of a file that the normalizer accepts, in order. *)
Fixpoint accepted (rows : list row) : list car :=
  match rows with
  | [] => []
  | r :: rest =>
      match _clean_row_data r with
      | Ok (Some c) => c :: accepted rest
      | _ => accepted rest
      end
  end.

(** No row of the file makes the normalizer raise. *)
Definition no_row_raises (rows : list row) : Prop :=
  forall r, In r rows -> exists outcome, _clean_row_data r = Ok outcome.

(** ** Filter engine: [filter_cars] *)

Definition is_clean (c : car) : bool :=
  String.eqb (title_status c) "clean vehicle".

(** [input(...)]: the next line typed by the user. *)
Definition input (stdin : list string) : result string * list string :=
  match stdin with
  | [] => (Raise EOFError, [])
  | line :: rest => (Ok line, rest)
  end.

(** The price stage, given the stripped answer of the user. *)
Definition apply_price_filter (price_filter : string) (cars : list car)
    : list car :=
  if String.eqb price_filter "" then cars
  else
    match float_of_string price_filter with
    | Some max_price_filter =>
        List.filter (fun c => int_le_float (price c) max_price_filter) cars
    | None => cars
    end.

(** The year stage. *)
Definition apply_year_filter (year_filter : string) (cars : list car)
    : list car :=
  if String.eqb year_filter "" then cars
  else
    match int_of_string year_filter with
    | Some min_year_filter =>
        List.filter (fun c => min_year_filter <=? year c) cars
    | None => cars
    end.

(** The result is the object after the call, the returned list (or the
    exception) and the input that is left. *)
Definition filter_cars (self : CarRankingSystem) (brand : string)
    (stdin : list string)
    : CarRankingSystem * result (list car) * list string :=
  let cars_available :=
    List.filter is_clean (default [] (cars_by_brand self !! brand)) in
  match cars_available with
  | [] => (self, Ok [], stdin)
  | _ :: _ =>
      match input stdin with
      | (Raise e, stdin1) => (self, Raise e, stdin1)
      | (Ok line1, stdin1) =>
          let price_filter := str_strip line1 in
          let cars_available := apply_price_filter price_filter cars_available in
          match cars_available with
          | [] => (self, Ok cars_available, stdin1)
          | _ :: _ =>
              match input stdin1 with
              | (Raise e, stdin2) => (self, Raise e, stdin2)
              | (Ok line2, stdin2) =>
                  let year_filter := str_strip line2 in
                  (self, Ok (apply_year_filter year_filter cars_available),
                   stdin2)
              end
          end
      end
  end.

(** The thresholds that the two answers activate: none for an empty
    answer or one that does not parse. *)
Definition price_ceiling (line : string) : option float :=
  if String.eqb (str_strip line) "" then None
  else float_of_string (str_strip line).

Definition year_floor (line : string) : option Z :=
  if String.eqb (str_strip line) "" then None
  else int_of_string (str_strip line).

Definition under_ceiling (max_price : option float) (c : car) : bool :=
  match max_price with
  | Some m => int_le_float (price c) m
  | None => true
  end.

Definition over_floor (min_year : option Z) (c : car) : bool :=
  match min_year with
  | Some m => m <=? year c
  | None => true
  end.
End Normalizer.

(** ** Summary statistics *)

Definition sum (l : list Z) : Z := fold_left Z.add l 0.

(** [min(l)] and [max(l)]; both raise [ValueError] on an empty list. *)
Definition py_min (l : list Z) : result Z :=
  match l with
  | [] => Raise ValueError
  | x :: rest => Ok (fold_left Z.min rest x)
  end.

Definition py_max (l : list Z) : result Z :=
  match l with
  | [] => Raise ValueError
  | x :: rest => Ok (fold_left Z.max rest x)
  end.

Record brand_stats := {
  stat_count : nat;
  avg_price : Q;
  min_price : Z;
  max_price : Z
}.

(** The body of the loop of [_show_brand_statistics], for the cars of one
    brand: the figures of the printed line, [None] when no line is
    printed. *)
Definition brand_statistics (cars : list car) : result (option brand_stats) :=
  let clean_cars := List.filter is_clean cars in
  match clean_cars with
  | [] => Ok None
  | _ :: _ =>
      let prices := List.map price clean_cars in
      avg ← int_truediv (sum prices) (Z.of_nat (length prices));
      lo ← py_min prices;
      hi ← py_max prices;
      Ok (Some {| stat_count := length clean_cars;
                  avg_price := avg;
                  min_price := lo;
                  max_price := hi |})
  end.

(** [sorted(d.keys())]: the keys of a dictionary in the order of their
    code points. *)
Definition string_le (a b : string) : Prop := String.leb a b = true.

#[export] Instance string_le_dec (a b : string) : Decision (string_le a b) :=
  bool_eq_dec (String.leb a b) true.

Definition sorted_keys {V : Type} (d : gmap string V) : list string :=
  merge_sort string_le (elements (dom d)).

Fixpoint brand_lines (index : gmap string (list car)) (brands : list string)
    : result (list (string * brand_stats)) :=
  match brands with
  | [] => Ok []
  | b :: rest =>
      line ← brand_statistics (default [] (index !! b));
      lines ← brand_lines index rest;
      Ok (match line with
          | Some figures => (b, figures) :: lines
          | None => lines
          end)
  end.

(** The lines of the table, one for each brand that has a clean car. *)
Definition _show_brand_statistics (self : CarRankingSystem)
    : result (list (string * brand_stats)) :=
  brand_lines (cars_by_brand self) (sorted_keys (cars_by_brand self)).

(** [l[:n]] *)
Definition slice_to (A : Type) (l : list A) (n : Z) : list A :=
  if n <? 0 then firstn (Z.to_nat (Z.of_nat (length l) + n)) l
  else firstn (Z.to_nat n) l.
Arguments slice_to {A} l n.

(** What [display_results] puts on the screen: either the line "No cars
    found ...", or the listed cars, each with its price per year of age
    when the age is positive, the number of cars not listed, and the
    summary line (count and average price). *)
Inductive display :=
| NoCarsFound
| Listing (top : list (car * option Q)) (more : option Z)
    (summary : option (nat * Q)).

Fixpoint display_cars (cars : list car) : result (list (car * option Q)) :=
  match cars with
  | [] => Ok []
  | c :: rest =>
      let current_year := 2025 in
      let age := current_year - year c in
      line ← (if 0 <? age
              then price_per_year ← int_truediv (price c) age;
                   Ok (c, Some price_per_year)
              else Ok (c, None));
      lines ← display_cars rest;
      Ok (line :: lines)
  end.

Definition display_results (cars : list car) (limit : Z) : result display :=
  match cars with
  | [] => Ok NoCarsFound
  | _ :: _ =>
      let total_cars := Z.of_nat (length cars) in
      let display_count := Z.min limit total_cars in
      top ← display_cars (slice_to cars display_count);
      let more :=
        if display_count <? total_cars
        then Some (total_cars - display_count) else None in
      summary ← (if (1 <? length cars)%nat
                 then let prices := List.map price cars in
                      avg_price ← int_truediv (sum prices)
                                    (Z.of_nat (length prices));
                      Ok (Some (length cars, avg_price))
                 else Ok None);
      Ok (Listing top more summary)
  end.

(** ** Ranking keys *)

Definition _get_price (c : car) : Z := price c.
Definition _get_year (c : car) : Z := year c.
Definition _get_mileage (c : car) : Z := mileage c.

Definition car_age (c : car) : Z :=
  let current_year := 2025 in
  Z.max 1 (current_year - year c).

(** [n ** 0.5] for an integer [n >= 0], the only bases that [car_age]
    supplies: the power with exponent one half is taken as the correctly
    rounded square root. *)
Definition pow_half (n : Z) : result float :=
  base ← float_of_int n;
  Ok (SFsqrt prec emax base).

Definition _get_value_score (c : car) : result float :=
  root ← pow_half (car_age c);
  p ← float_of_int (price c);
  float_div p root.

(** The check behind the age floor for one model year: the base of the
    root and the root itself are floats above zero. *)
Definition root_is_positive (model_year : Z) : bool :=
  let age := Z.max 1 (2025 - model_year) in
  match float_of_int age, pow_half age with
  | Ok base, Ok root => float_lt float_zero base && float_lt float_zero root
  | _, _ => false
  end.

(** The key that [quicksort] is handed when it ranks by value: the score,
    where [_get_value_score] returns one.  Where it raises, so does the
    sort; NaN, which compares with nothing, stands for that case. *)
Definition value_key (c : car) : float :=
  match _get_value_score c with
  | Ok score => score
  | Raise _ => S754_nan
  end.

(** Sample records: the two listings of the documented scenario, and a
    third one with the price of the second. *)
Definition camry : car :=
  {| price := 15000; brand := "toyota"; model := "Camry"; year := 2020;
     title_status := "clean vehicle"; mileage := 30000; color := "Blue" |}.

Definition corolla : car :=
  {| price := 12000; brand := "toyota"; model := "Corolla"; year := 2018;
     title_status := "clean vehicle"; mileage := 45000; color := "Red" |}.

Definition prius : car :=
  {| price := 12000; brand := "toyota"; model := "Prius"; year := 2021;
     title_status := "salvage insurance"; mileage := 8000; color := "Grey" |}.

(** ** Comparison of sort keys

    [quicksort] only ever applies Python's [<], [==] and [>] to the values
    of [key_func].  A key type is anything that carries these three tests. *)

Class PyCmp (K : Type) := {
  py_lt : K -> K -> bool;
  py_eq : K -> K -> bool;
  py_gt : K -> K -> bool
}.

#[export] Instance Z_PyCmp : PyCmp Z :=
  {| py_lt := Z.ltb; py_eq := Z.eqb; py_gt := Z.gtb |}.

#[export] Instance float_PyCmp : PyCmp float :=
  {| py_lt := float_lt; py_eq := float_eq; py_gt := fun f g => float_lt g f |}.

(** The laws that the three tests obey on the keys that can be compared
    with each other, [comparable]: all integers, and all floats but NaN.
    [<] is a strict weak order, [==] is its incomparability relation and
    [>] is [<] with the operands swapped. *)

Class PyCmpLaws {K : Type} `{PyCmp K} (comparable : K -> Prop) : Prop := {
  py_gt_lt : forall a b, comparable a -> comparable b ->
      py_gt a b = py_lt b a;
  py_eq_spec : forall a b, comparable a -> comparable b ->
      py_eq a b = negb (py_lt a b) && negb (py_lt b a);
  py_lt_irrefl : forall a, comparable a -> py_lt a a = false;
  py_lt_trans : forall a b c, comparable a -> comparable b -> comparable c ->
      py_lt a b = true -> py_lt b c = true -> py_lt a c = true;
  py_eq_trans : forall a b c, comparable a -> comparable b -> comparable c ->
      py_eq a b = true -> py_eq b c = true -> py_eq a c = true
}.

Definition any_int (z : Z) : Prop := True.
Definition not_nan (f : float) : Prop := f <> S754_nan.

(** ** Ranking engine: [quicksort] *)

Section Quicksort.
Context {A K : Type} `{PyCmp K}.

(** The three list comprehensions of [CarRankingSystem.quicksort].  With
    [reverse] the first group holds the larger keys. *)

Definition left_of (key_func : A -> K) (reverse : bool) (pivot_value : K)
    (arr : list A) : list A :=
  if reverse
  then List.filter (fun x => py_gt (key_func x) pivot_value) arr
  else List.filter (fun x => py_lt (key_func x) pivot_value) arr.

Definition middle_of (key_func : A -> K) (pivot_value : K)
    (arr : list A) : list A :=
  List.filter (fun x => py_eq (key_func x) pivot_value) arr.

Definition right_of (key_func : A -> K) (reverse : bool) (pivot_value : K)
    (arr : list A) : list A :=
  if reverse
  then List.filter (fun x => py_lt (key_func x) pivot_value) arr
  else List.filter (fun x => py_gt (key_func x) pivot_value) arr.

(** [quicksort_rec depth] follows the recursion of the source for at most
    [depth] nested calls.  [None] stands for a call that does not return a
    list: the nesting budget is used up, or [arr[len(arr) // 2]] is out of
    range (which needs [len(arr) = 0], excluded by the first test).  The
    limit that the Python interpreter itself puts on nested calls is a
    resource bound and is not part of the model. *)

Fixpoint quicksort_rec (depth : nat) (arr : list A) (key_func : A -> K)
    (reverse : bool) : option (list A) :=
  match depth with
  | O => None
  | S depth' =>
      if (length arr <=? 1)%nat then Some arr
      else
        match nth_error arr (length arr / 2)%nat with
        | None => None
        | Some pivot =>
            let pivot_value := key_func pivot in
            let left := left_of key_func reverse pivot_value arr in
            let middle := middle_of key_func pivot_value arr in
            let right := right_of key_func reverse pivot_value arr in
            match quicksort_rec depth' left key_func reverse,
                  quicksort_rec depth' right key_func reverse with
            | Some sorted_left, Some sorted_right =>
                Some ((sorted_left ++ middle) ++ sorted_right)
            | _, _ => None
            end
        end
  end.

(** The nesting of calls never exceeds the length of the list (each
    recursive call leaves out at least the pivot), so this budget is
    enough whenever the keys can be compared. *)

Definition quicksort (arr : list A) (key_func : A -> K) (reverse : bool)
    : option (list A) :=
  quicksort_rec (S (length arr)) arr key_func reverse.

(** [sorts_before reverse a b]: key [a] goes to the first group when [b]
    is the pivot's key; [sorts_after]: to the last group. *)

Definition sorts_before (reverse : bool) (a b : K) : bool :=
  if reverse then py_gt a b else py_lt a b.

Definition sorts_after (reverse : bool) (a b : K) : bool :=
  if reverse then py_lt a b else py_gt a b.

(** The order requested of the output: with [reverse = false] no later
    element has a smaller key, with [reverse = true] none has a larger. *)

Definition in_order (key_func : A -> K) (reverse : bool) (x y : A) : Prop :=
  if reverse
  then py_lt (key_func x) (key_func y) = false
  else py_lt (key_func y) (key_func x) = false.

(** Keys pairwise different under [==]. *)

Fixpoint distinct_keys (key_func : A -> K) (arr : list A) : bool :=
  match arr with
  | [] => true
  | x :: rest =>
      forallb (fun y => negb (py_eq (key_func x) (key_func y))) rest
      && distinct_keys key_func rest
  end.

(** All keys of a list lie among the comparable ones. *)

Definition keys_in (comparable : K -> Prop) (key_func : A -> K)
    (arr : list A) : Prop :=
  forall x, In x arr -> comparable (key_func x).
End Quicksort.

(** ** The simpler variant, [code.py] *)

Module Simple.

(** The two module-level variables.  A car is the row itself, with two
    fields overwritten. *)
Record globals := {
  cars_data : list row;
  cars_by_brand : gmap pyval (list row)
}.

Section Load.
Context `{Builtins}.

(** The body of the [try] block of the loop. *)
Definition convert_row (r : row) : result row :=
  v ← getitem r "price";
  f ← py_float v;
  p ← int_of_float f;
  let r := <["price" := PInt p]> r in
  v ← getitem r "mileage";
  f ← py_float v;
  m ← int_of_float f;
  Ok (<["mileage" := PInt m]> r).

Fixpoint read_rows (data : list row) (rows : list row)
    : result (list row) :=
  match rows with
  | [] => Ok data
  | r :: rest =>
      match convert_row r with
      | Ok converted => read_rows (data ++ [converted]) rest
      | Raise ValueError => read_rows data rest
      | Raise e => Raise e
      end
  end.

Fixpoint organize (index : gmap pyval (list row)) (cars : list row)
    : result (gmap pyval (list row)) :=
  match cars with
  | [] => Ok index
  | c :: rest =>
      b ← getitem c "brand";
      organize (<[b := default [] (index !! b) ++ [c]]> index) rest
  end.

(** [exit(1)] on a missing file is [SystemExit]; any exception other
    than the [ValueError] caught in the loop ends the call. *)
Definition load_data (g : globals) (file : option (list row))
    : result globals :=
  match file with
  | None => Raise SystemExit
  | Some rows =>
      data ← read_rows [] rows;
      index ← organize (cars_by_brand g) data;
      Ok {| cars_data := data; cars_by_brand := index |}
  end.
End Load.

Section Quicksort.
Context {A K : Type} `{PyCmp K}.

(** Ascending only; the pivot's key is recomputed in each
    comprehension. *)
Fixpoint quicksort_rec (depth : nat) (arr : list A) (key_func : A -> K)
    : option (list A) :=
  match depth with
  | O => None
  | S depth' =>
      if (length arr <=? 1)%nat then Some arr
      else
        match nth_error arr (length arr / 2)%nat with
        | None => None
        | Some pivot =>
            let left :=
              List.filter
                (fun x => py_lt (key_func x) (key_func pivot)) arr in
            let middle :=
              List.filter
                (fun x => py_eq (key_func x) (key_func pivot)) arr in
            let right :=
              List.filter
                (fun x => py_gt (key_func x) (key_func pivot)) arr in
            match quicksort_rec depth' left key_func,
                  quicksort_rec depth' right key_func with
            | Some sorted_left, Some sorted_right =>
                Some ((sorted_left ++ middle) ++ sorted_right)
            | _, _ => None
            end
        end
  end.

Definition quicksort (arr : list A) (key_func : A -> K)
    : option (list A) :=
  quicksort_rec (S (length arr)) arr key_func.
End Quicksort.
End Simple.

(** ** Built-ins on plain ASCII text

    An instance of [Builtins] for evaluating the program on concrete rows:
    whitespace is the ASCII whitespace of [str.isspace], letters are A-Z,
    and a number is an optional sign followed by decimal digits.  On such
    input these agree with the Python runtime. *)

Module Plain.

Definition is_space (c : ascii) : bool :=
  let n := nat_of_ascii c in
  ((9 <=? n) && (n <=? 13) || (28 <=? n) && (n <=? 32))%nat.

Fixpoint lstrip (s : string) : string :=
  match s with
  | String c rest => if is_space c then lstrip rest else s
  | EmptyString => EmptyString
  end.

Fixpoint rstrip (s : string) : string :=
  match s with
  | String c rest =>
      match rstrip rest with
      | EmptyString => if is_space c then EmptyString else String c EmptyString
      | kept => String c kept
      end
  | EmptyString => EmptyString
  end.

Definition strip (s : string) : string := rstrip (lstrip s).

Definition lower_char (c : ascii) : ascii :=
  let n := nat_of_ascii c in
  if ((65 <=? n) && (n <=? 90))%nat then ascii_of_nat (n + 32) else c.

Fixpoint lower (s : string) : string :=
  match s with
  | String c rest => String (lower_char c) (lower rest)
  | EmptyString => EmptyString
  end.

Definition digit (c : ascii) : option Z :=
  let n := nat_of_ascii c in
  if ((48 <=? n) && (n <=? 57))%nat then Some (Z.of_nat n - 48) else None.

Fixpoint digits (acc : Z) (s : string) : option Z :=
  match s with
  | EmptyString => Some acc
  | String c rest =>
      match digit c with
      | Some d => digits (10 * acc + d) rest
      | None => None
      end
  end.

Definition unsigned (s : string) : option Z :=
  match s with
  | EmptyString => None
  | _ => digits 0 s
  end.

Definition parse_int (s : string) : option Z :=
  match strip s with
  | String "-"%char rest => Z.opp <$> unsigned rest
  | String "+"%char rest => unsigned rest
  | body => unsigned body
  end.

Definition parse_float (s : string) : option float :=
  match parse_int s with
  | Some z =>
      match float_of_int z with
      | Ok f => Some f
      | Raise _ => None
      end
  | None => None
  end.

#[export] Instance builtins : Builtins :=
  {| float_of_string := parse_float;
     int_of_string := parse_int;
     str_strip := strip;
     str_lower := lower |}.

End Plain.

(** The first row of the documented scenario, and what [code.py] makes of
    it. *)
Definition camry_row : row :=
  list_to_map
    [("price", PStr "15000"); ("year", PStr "2020"); ("brand", PStr "Toyota");
     ("model", PStr "Camry"); ("title_status", PStr "clean vehicle");
     ("mileage", PStr "30000"); ("color", PStr "Blue")].

Definition camry_converted : row :=
  <["mileage" := PInt 30000]> (<["price" := PInt 15000]> camry_row).

(** The module-level variables of [code.py] when the module is loaded. *)
Definition simple_init : Simple.globals :=
  {| Simple.cars_data := []; Simple.cars_by_brand := ∅ |}.

(** The variables of [code.py] after a load of the file that holds
    [camry_row] alone, with [cars] as the group of its brand. *)
Definition simple_loaded (cars : list row) : Simple.globals :=
  {| Simple.cars_data := [camry_converted];
     Simple.cars_by_brand := {[ PStr "Toyota" := cars ]} |}.

(** Rows of the other documented scenarios: a year below the range, a
    negative price, and the first row with a column missing. *)
Definition old_row : row := <["year" := PStr "1899"]> camry_row.
Definition negative_row : row := <["price" := PStr "-500"]> camry_row.
Definition corolla_row : row :=
  list_to_map
    [("price", PStr "12000"); ("year", PStr "2018"); ("brand", PStr "Toyota");
     ("model", PStr "Corolla"); ("title_status", PStr "clean vehicle");
     ("mileage", PStr "45000"); ("color", PStr "Red")].

(** A car of the current model year. *)
Definition new_car : car :=
  {| price := 20000; brand := "toyota"; model := "Camry"; year := 2025;
     title_status := "clean vehicle"; mileage := 10; color := "White" |}.


(** ** Interactive selection: [get_user_brand], [get_ranking_method] *)

(** The four entries of [self.ranking_methods].  The key function of an
    entry is named by a tag, the functions themselves being [_get_price],
    [_get_year], [_get_mileage] and [_get_value_score]. *)

Inductive ranking_key := ByPrice | ByYear | ByMileage | ByValue.

Definition ranking_methods (choice : string)
    : option (string * string * ranking_key * bool) :=
  if String.eqb choice "1"
  then Some ("price", "Price (Low to High)", ByPrice, false)
  else if String.eqb choice "2"
  then Some ("year", "Year (Newest First)", ByYear, true)
  else if String.eqb choice "3"
  then Some ("mileage", "Mileage (Low to High)", ByMileage, false)
  else if String.eqb choice "4"
  then Some ("value", "Best Value (Price/Year ratio)", ByValue, false)
  else None.

Section Prompts.
Context `{Builtins}.

(** The [while True] loop of [get_user_brand], one turn for each line of
    input.  [brands[choice_num - 1]] is within range by the test before it;
    the lookup that fails, which cannot occur, stands as [KeyError]. *)

Fixpoint ask_brand (self : CarRankingSystem) (brands : list string)
    (stdin : list string) : result (option string) * list string :=
  match stdin with
  | [] => (Raise EOFError, [])
  | line :: rest =>
      let choice := str_strip line in
      if String.eqb (str_lower choice) "q" then (Ok None, rest)
      else
        match int_of_string choice with
        | None => ask_brand self brands rest
        | Some choice_num =>
            if choice_num =? Z.of_nat (length brands) + 1 then
              match _show_brand_statistics self with
              | Ok _ => ask_brand self brands rest
              | Raise ValueError => ask_brand self brands rest
              | Raise e => (Raise e, rest)
              end
            else if (1 <=? choice_num) && (choice_num <=? Z.of_nat (length brands))
            then
              match nth_error brands (Z.to_nat (choice_num - 1)) with
              | Some b => (Ok (Some b), rest)
              | None => (Raise KeyError, rest)
              end
            else ask_brand self brands rest
        end
  end.

Definition get_user_brand (self : CarRankingSystem) (stdin : list string)
    : result (option string) * list string :=
  if decide (cars_by_brand self = ∅) then (Ok None, stdin)
  else ask_brand self (sorted_keys (cars_by_brand self)) stdin.

(** The loop of [get_ranking_method]. *)

Fixpoint get_ranking_method (stdin : list string)
    : result (option (string * string * ranking_key * bool)) * list string :=
  match stdin with
  | [] => (Raise EOFError, [])
  | line :: rest =>
      let choice := str_strip line in
      if String.eqb (str_lower choice) "q" then (Ok None, rest)
      else
        match ranking_methods choice with
        | Some method => (Ok (Some method), rest)
        | None => get_ranking_method rest
        end
  end.

(** An answer that neither quits nor names a ranking method. *)
Definition not_a_method (line : string) : Prop :=
  String.eqb (str_lower (str_strip line)) "q" = false /\
  ranking_methods (str_strip line) = None.
End Prompts.

(** ** More of [code.py]: the key functions and the menu *)

Module SimpleKeys.

(** [-v] *)
Definition neg (v : pyval) : result pyval :=
  match v with
  | PInt z => Ok (PInt (- z))
  | _ => Raise TypeError
  end.

Definition get_price (c : row) : result pyval := getitem c "price".

Definition get_year (c : row) : result pyval :=
  v ← getitem c "year";
  neg v.

Definition get_mileage (c : row) : result pyval := getitem c "mileage".

Section Menu.
Context `{Builtins}.

(** The loop of [get_ranking_method]; [int] is applied to the line as it
    was typed. *)
Fixpoint get_ranking_method (stdin : list string)
    : result string * list string :=
  match stdin with
  | [] => (Raise EOFError, [])
  | line :: rest =>
      match int_of_string line with
      | None => get_ranking_method rest
      | Some choice =>
          if choice =? 1 then (Ok "price", rest)
          else if choice =? 2 then (Ok "year", rest)
          else if choice =? 3 then (Ok "mileage", rest)
          else get_ranking_method rest
      end
  end.
End Menu.
End SimpleKeys.

(** ** Built-ins that also read the special floats

    As [Plain], with the spellings [inf], [-inf] and [nan] that [float]
    accepts besides the decimal ones. *)

Module Special.

Definition parse_float (s : string) : option float :=
  let body := Plain.lower (Plain.strip s) in
  if String.eqb body "inf" then Some (S754_infinity false)
  else if String.eqb body "-inf" then Some (S754_infinity true)
  else if String.eqb body "nan" then Some S754_nan
  else Plain.parse_float s.

#[export] Instance builtins : Builtins :=
  {| float_of_string := parse_float;
     int_of_string := Plain.parse_int;
     str_strip := Plain.strip;
     str_lower := Plain.lower |}.

End Special.

(** The first sample row with a price beyond every float, and with a price
    that is no number. *)
Definition infinite_row : row := <["price" := PStr "inf"]> camry_row.
Definition nan_row : row := <["price" := PStr "nan"]> camry_row.


(** The rows of a file that the loop of [code.py] keeps, as it keeps
    them. *)
Fixpoint simple_converted `{Builtins} (rows : list row) : list row :=
  match rows with
  | [] => []
  | r :: rest =>
      match Simple.convert_row r with
      | Ok converted => converted :: simple_converted rest
      | _ => simple_converted rest
      end
  end.

(** No row of the file makes the loop of [code.py] raise anything but the
    [ValueError] that it catches. *)
Definition simple_rows_load `{Builtins} (rows : list row) : Prop :=
  forall r, In r rows ->
    (exists converted, Simple.convert_row r = Ok converted) \/
    Simple.convert_row r = Raise ValueError.

(** The object with the group of one brand replaced. *)
Definition with_group (self : CarRankingSystem) (brand : string)
    (cars : list car) : CarRankingSystem :=
  {| cars_data := cars_data self;
     cars_by_brand := <[brand := cars]> (cars_by_brand self) |}.
(** * Part II: properties *)

(** ** Lawful keys *)

#[export] Instance Z_PyCmpLaws : PyCmpLaws any_int.
Proof.
  split; cbn; intros.
  - rewrite Z.gtb_ltb. reflexivity.
  - destruct (Z.eqb_spec a b), (Z.ltb_spec a b), (Z.ltb_spec b a); cbn; lia.
  - apply Z.ltb_irrefl.
  - rewrite Z.ltb_lt in *. lia.
  - rewrite Z.eqb_eq in *. lia.
Qed.

(** ** Consequences of the laws *)

Section KeyOrder.
Context {K : Type} `{PyCmp K} (comparable : K -> Prop).
Context `{!PyCmpLaws comparable}.

Lemma py_eq_refl (a : K) : comparable a -> py_eq a a = true.
Proof.
  intros Ha. rewrite py_eq_spec, py_lt_irrefl by assumption. reflexivity.
Qed.

Lemma py_eq_sym (a b : K) :
  comparable a -> comparable b -> py_eq a b = py_eq b a.
Proof. intros Ha Hb. rewrite !py_eq_spec by assumption. apply andb_comm. Qed.

Lemma py_lt_asym (a b : K) :
  comparable a -> comparable b -> py_lt a b = true -> py_lt b a = false.
Proof.
  intros Ha Hb Hab. destruct (py_lt b a) eqn:Hba; [|reflexivity].
  rewrite <- (py_lt_irrefl a Ha). symmetry.
  apply (py_lt_trans a b a); assumption.
Qed.

Lemma py_eq_not_lt (a b : K) :
  comparable a -> comparable b -> py_eq a b = true -> py_lt a b = false.
Proof.
  intros Ha Hb. rewrite py_eq_spec by assumption.
  intros [H1 _]%andb_true_iff. now apply negb_true_iff in H1.
Qed.

Lemma py_eq_not_gt (a b : K) :
  comparable a -> comparable b -> py_eq a b = true -> py_lt b a = false.
Proof.
  intros Ha Hb. rewrite py_eq_sym by assumption. now apply py_eq_not_lt.
Qed.

Lemma py_not_lt_eq (a b : K) :
  comparable a -> comparable b ->
  py_lt a b = false -> py_lt b a = false -> py_eq a b = true.
Proof.
  intros Ha Hb H1 H2. rewrite py_eq_spec, H1, H2 by assumption. reflexivity.
Qed.

(** [<] cannot tell apart two keys that are [==]. *)

Lemma py_lt_eq_l (a b c : K) :
  comparable a -> comparable b -> comparable c ->
  py_eq a b = true -> py_lt a c = py_lt b c.
Proof.
  intros Ha Hb Hc.
  assert (Hone : forall x y, comparable x -> comparable y ->
                   py_eq x y = true -> py_lt x c = true -> py_lt y c = true).
  { intros x y Hx Hy Hxy Hxc.
    destruct (py_lt y c) eqn:Hyc; [reflexivity|].
    destruct (py_lt c y) eqn:Hcy.
    - pose proof (py_lt_trans x c y Hx Hc Hy Hxc Hcy) as Hlt.
      rewrite (py_eq_not_lt x y Hx Hy Hxy) in Hlt. discriminate.
    - pose proof (py_eq_trans x y c Hx Hy Hc Hxy
                    (py_not_lt_eq y c Hy Hc Hyc Hcy)) as Heq.
      rewrite (py_eq_not_lt x c Hx Hc Heq) in Hxc. discriminate. }
  intros Hab.
  destruct (py_lt a c) eqn:Hac, (py_lt b c) eqn:Hbc; try reflexivity.
  - rewrite (Hone a b Ha Hb Hab Hac) in Hbc. discriminate.
  - rewrite py_eq_sym in Hab by assumption.
    rewrite (Hone b a Hb Ha Hab Hbc) in Hac. discriminate.
Qed.

Lemma py_lt_eq_r (a b c : K) :
  comparable a -> comparable b -> comparable c ->
  py_eq a b = true -> py_lt c a = py_lt c b.
Proof.
  intros Ha Hb Hc.
  assert (Hone : forall x y, comparable x -> comparable y ->
                   py_eq x y = true -> py_lt c x = true -> py_lt c y = true).
  { intros x y Hx Hy Hxy Hcx.
    destruct (py_lt c y) eqn:Hcy; [reflexivity|].
    destruct (py_lt y c) eqn:Hyc.
    - pose proof (py_lt_trans y c x Hy Hc Hx Hyc Hcx) as Hlt.
      rewrite (py_eq_not_gt x y Hx Hy Hxy) in Hlt. discriminate.
    - pose proof (py_not_lt_eq c y Hc Hy Hcy Hyc) as Hcy'.
      rewrite py_eq_sym in Hxy by assumption.
      pose proof (py_eq_trans c y x Hc Hy Hx Hcy' Hxy) as Heq.
      rewrite (py_eq_not_lt c x Hc Hx Heq) in Hcx. discriminate. }
  intros Hab.
  destruct (py_lt c a) eqn:Hca, (py_lt c b) eqn:Hcb; try reflexivity.
  - rewrite (Hone a b Ha Hb Hab Hca) in Hcb. discriminate.
  - rewrite py_eq_sym in Hab by assumption.
    rewrite (Hone b a Hb Ha Hab Hcb) in Hca. discriminate.
Qed.

Lemma py_eq_eq_l (a b c : K) :
  comparable a -> comparable b -> comparable c ->
  py_eq a b = true -> py_eq a c = py_eq b c.
Proof.
  intros Ha Hb Hc Hab. rewrite !py_eq_spec by assumption.
  rewrite (py_lt_eq_l a b c), (py_lt_eq_r a b c) by assumption.
  reflexivity.
Qed.

(** Exactly one of [a < b], [a == b], [a > b] holds. *)

Lemma py_trichotomy (a b : K) :
  comparable a -> comparable b ->
  (py_lt a b = true /\ py_eq a b = false /\ py_gt a b = false) \/
  (py_lt a b = false /\ py_eq a b = true /\ py_gt a b = false) \/
  (py_lt a b = false /\ py_eq a b = false /\ py_gt a b = true).
Proof.
  intros Ha Hb. rewrite py_gt_lt, py_eq_spec by assumption.
  destruct (py_lt a b) eqn:Hab.
  - rewrite (py_lt_asym a b Ha Hb Hab). auto.
  - destruct (py_lt b a); auto.
Qed.

(** The same facts in terms of the two outer groups of the partition. *)

Lemma sorts_trichotomy reverse (a b : K) :
  comparable a -> comparable b ->
  (sorts_before reverse a b = true /\ py_eq a b = false
     /\ sorts_after reverse a b = false) \/
  (sorts_before reverse a b = false /\ py_eq a b = true
     /\ sorts_after reverse a b = false) \/
  (sorts_before reverse a b = false /\ py_eq a b = false
     /\ sorts_after reverse a b = true).
Proof.
  intros Ha Hb. unfold sorts_before, sorts_after.
  destruct reverse, (py_trichotomy a b Ha Hb) as [?|[?|?]]; intuition.
Qed.

Lemma sorts_before_eq_l reverse (a b c : K) :
  comparable a -> comparable b -> comparable c ->
  py_eq a b = true -> sorts_before reverse a c = sorts_before reverse b c.
Proof.
  intros Ha Hb Hc Hab. unfold sorts_before. destruct reverse.
  - rewrite !py_gt_lt by assumption. now apply py_lt_eq_r.
  - now apply py_lt_eq_l.
Qed.

Lemma sorts_before_eq_r reverse (a b c : K) :
  comparable a -> comparable b -> comparable c ->
  py_eq a b = true -> sorts_before reverse c a = sorts_before reverse c b.
Proof.
  intros Ha Hb Hc Hab. unfold sorts_before. destruct reverse.
  - rewrite !py_gt_lt by assumption. now apply py_lt_eq_l.
  - now apply py_lt_eq_r.
Qed.

Lemma sorts_before_trans reverse (a b c : K) :
  comparable a -> comparable b -> comparable c ->
  sorts_before reverse a b = true -> sorts_before reverse b c = true ->
  sorts_before reverse a c = true.
Proof.
  intros Ha Hb Hc. unfold sorts_before. destruct reverse.
  - rewrite !py_gt_lt by assumption. intros ? ?.
    apply (py_lt_trans c b a); assumption.
  - now apply py_lt_trans.
Qed.

Lemma sorts_after_swap reverse (a b : K) :
  comparable a -> comparable b ->
  sorts_after reverse a b = sorts_before reverse b a.
Proof.
  intros Ha Hb. unfold sorts_before, sorts_after.
  destruct reverse; rewrite py_gt_lt by assumption; reflexivity.
Qed.
End KeyOrder.

(** ** Facts on list comprehensions *)

Section FilterFacts.
Context {A : Type}.

Lemma filter_filter_keep (f g : A -> bool) (l : list A) :
  (forall x, In x l -> g x = true -> f x = true) ->
  List.filter g (List.filter f l) = List.filter g l.
Proof.
  induction l as [|x l IH]; intros Himp; [reflexivity|].
  cbn [List.filter]. destruct (f x) eqn:Hf.
  - cbn [List.filter]. rewrite IH; [reflexivity|].
    intros y Hy. apply Himp. now right.
  - destruct (g x) eqn:Hg.
    + rewrite (Himp x) in Hf by (assumption || now left). discriminate.
    + apply IH. intros y Hy. apply Himp. now right.
Qed.

Lemma filter_filter_none (f g : A -> bool) (l : list A) :
  (forall x, In x l -> g x = true -> f x = false) ->
  List.filter g (List.filter f l) = [].
Proof.
  induction l as [|x l IH]; intros Himp; [reflexivity|].
  assert (Hrest : List.filter g (List.filter f l) = []).
  { apply IH. intros y Hy. apply Himp. now right. }
  cbn [List.filter]. destruct (f x) eqn:Hf; [|assumption].
  cbn [List.filter]. destruct (g x) eqn:Hg; [|assumption].
  rewrite (Himp x) in Hf by (assumption || now left). discriminate.
Qed.

Lemma filter_none (f : A -> bool) (l : list A) :
  (forall x, In x l -> f x = false) -> List.filter f l = [].
Proof.
  intros Hall. induction l as [|x l IH]; [reflexivity|].
  cbn [List.filter]. rewrite (Hall x) by now left.
  apply IH. intros y Hy. apply Hall. now right.
Qed.

Lemma filter_all (f : A -> bool) (l : list A) :
  (forall x, In x l -> f x = true) -> List.filter f l = l.
Proof.
  intros Hall. induction l as [|x l IH]; [reflexivity|].
  cbn [List.filter]. rewrite (Hall x) by now left.
  f_equal. apply IH. intros y Hy. apply Hall. now right.
Qed.
End FilterFacts.

(** ** The three-way partition *)

Section Partition.
Context {A K : Type} `{PyCmp K} (comparable : K -> Prop).
Context `{!PyCmpLaws comparable}.
Variable key_func : A -> K.

Lemma left_of_filter reverse pv (arr : list A) :
  left_of key_func reverse pv arr
  = List.filter (fun x => sorts_before reverse (key_func x) pv) arr.
Proof. unfold left_of, sorts_before. destruct reverse; reflexivity. Qed.

Lemma right_of_filter reverse pv (arr : list A) :
  right_of key_func reverse pv arr
  = List.filter (fun x => sorts_after reverse (key_func x) pv) arr.
Proof. unfold right_of, sorts_after. destruct reverse; reflexivity. Qed.

Lemma keys_in_filter (f : A -> bool) (arr : list A) :
  keys_in comparable key_func arr ->
  keys_in comparable key_func (List.filter f arr).
Proof. intros Hin x Hx. apply Hin. now apply filter_In in Hx. Qed.

Lemma keys_in_left_of reverse pv (arr : list A) :
  keys_in comparable key_func arr ->
  keys_in comparable key_func (left_of key_func reverse pv arr).
Proof. rewrite left_of_filter. apply keys_in_filter. Qed.

Lemma keys_in_right_of reverse pv (arr : list A) :
  keys_in comparable key_func arr ->
  keys_in comparable key_func (right_of key_func reverse pv arr).
Proof. rewrite right_of_filter. apply keys_in_filter. Qed.

Lemma keys_in_cons x (arr : list A) :
  keys_in comparable key_func (x :: arr) ->
  comparable (key_func x) /\ keys_in comparable key_func arr.
Proof.
  intros Hin. split; [apply Hin; now left|].
  intros y Hy. apply Hin. now right.
Qed.

Lemma sorts_before_in_order reverse (x y : A) :
  comparable (key_func x) -> comparable (key_func y) ->
  sorts_before reverse (key_func x) (key_func y) = true ->
  in_order key_func reverse x y.
Proof.
  intros Hx Hy. unfold sorts_before, in_order. destruct reverse.
  - rewrite py_gt_lt by assumption. now apply (py_lt_asym comparable).
  - now apply (py_lt_asym comparable).
Qed.

Lemma py_eq_in_order reverse (x y : A) :
  comparable (key_func x) -> comparable (key_func y) ->
  py_eq (key_func x) (key_func y) = true -> in_order key_func reverse x y.
Proof.
  intros Hx Hy. unfold in_order.
  destruct reverse;
    [now apply (py_eq_not_lt comparable) | now apply (py_eq_not_gt comparable)].
Qed.

(** The three comprehensions split the list: nothing lost, nothing
    duplicated. *)

Lemma partition_Permutation reverse pv (arr : list A) :
  comparable pv -> keys_in comparable key_func arr ->
  Permutation arr
    ((left_of key_func reverse pv arr ++ middle_of key_func pv arr)
       ++ right_of key_func reverse pv arr).
Proof.
  intros Hpv. rewrite left_of_filter, right_of_filter. unfold middle_of.
  induction arr as [|x arr IH]; intros Hkeys; [constructor|].
  apply keys_in_cons in Hkeys as [Hx Hkeys]. specialize (IH Hkeys).
  cbn [List.filter].
  destruct (sorts_trichotomy comparable reverse (key_func x) pv Hx Hpv)
    as [(-> & -> & ->)|[(-> & -> & ->)|(-> & -> & ->)]].
  - cbn. now constructor.
  - rewrite <- app_assoc. cbn [app]. rewrite <- Permutation_middle.
    rewrite app_assoc. now constructor.
  - rewrite <- Permutation_middle. now constructor.
Qed.

Lemma partition_length reverse pv (arr : list A) :
  comparable pv -> keys_in comparable key_func arr ->
  (length arr
   = length (left_of key_func reverse pv arr)
     + length (middle_of key_func pv arr)
     + length (right_of key_func reverse pv arr))%nat.
Proof.
  intros Hpv Hkeys.
  rewrite (Permutation_length
             (partition_Permutation reverse pv arr Hpv Hkeys)) at 1.
  rewrite !length_app. reflexivity.
Qed.

(** The pivot belongs to the middle group, so both recursive calls get a
    strictly shorter list. *)

Lemma pivot_in_middle (arr : list A) pivot i :
  keys_in comparable key_func arr ->
  nth_error arr i = Some pivot ->
  In pivot (middle_of key_func (key_func pivot) arr).
Proof.
  intros Hkeys Hnth. apply nth_error_In in Hnth.
  apply filter_In. split; [assumption|].
  apply (py_eq_refl comparable). now apply Hkeys.
Qed.

Lemma partition_shorter reverse (arr : list A) pivot i :
  keys_in comparable key_func arr ->
  nth_error arr i = Some pivot ->
  (length (left_of key_func reverse (key_func pivot) arr) < length arr
   /\ length (right_of key_func reverse (key_func pivot) arr) < length arr)%nat.
Proof.
  intros Hkeys Hnth.
  pose proof (pivot_in_middle _ _ _ Hkeys Hnth) as Hin.
  assert (Hpv : comparable (key_func pivot)).
  { apply Hkeys. eapply nth_error_In. eassumption. }
  pose proof (partition_length reverse (key_func pivot) arr Hpv Hkeys)
    as Hlen.
  destruct (middle_of key_func (key_func pivot) arr); [destruct Hin|].
  cbn [length] in Hlen. lia.
Qed.

Lemma middle_pivot_exists (arr : list A) :
  (2 <= length arr)%nat ->
  exists pivot, nth_error arr (length arr / 2) = Some pivot.
Proof.
  intros Hlen.
  destruct (nth_error arr (length arr / 2)) eqn:Hnth; [eauto|].
  apply nth_error_None in Hnth.
  pose proof (Nat.div_lt (length arr) 2). lia.
Qed.
End Partition.

(** ** The recursion of [quicksort] *)

Section QuicksortRecursion.
Context {A K : Type} `{PyCmp K} (comparable : K -> Prop).
Context `{!PyCmpLaws comparable}.
Variable key_func : A -> K.

(** A larger nesting budget never changes a result. *)

Lemma quicksort_rec_mono reverse (d d' : nat) (arr out : list A) :
  (d <= d')%nat ->
  quicksort_rec d arr key_func reverse = Some out ->
  quicksort_rec d' arr key_func reverse = Some out.
Proof.
  revert d' arr out.
  induction d as [|d IH]; intros d' arr out Hle Hrun; [discriminate|].
  destruct d' as [|d']; [lia|].
  cbn [quicksort_rec] in *.
  destruct (length arr <=? 1)%nat; [assumption|].
  destruct (nth_error arr (length arr / 2)) as [pivot|]; [|discriminate].
  cbv zeta in *.
  destruct (quicksort_rec d (left_of _ _ _ _) _ _) as [sl|] eqn:Hl;
    [|discriminate].
  destruct (quicksort_rec d (right_of _ _ _ _) _ _) as [sr|] eqn:Hr;
    [|discriminate].
  rewrite (IH d' _ sl), (IH d' _ sr) by (assumption || lia).
  assumption.
Qed.

(** A budget above the length of the list is always enough. *)

Lemma quicksort_rec_total reverse (d : nat) (arr : list A) :
  keys_in comparable key_func arr ->
  (length arr < d)%nat ->
  exists out, quicksort_rec d arr key_func reverse = Some out.
Proof.
  revert arr. induction d as [|d IH]; intros arr Hkeys Hlt; [lia|].
  cbn [quicksort_rec].
  destruct (Nat.leb_spec (length arr) 1) as [Hle|Hgt]; [eauto|].
  destruct (middle_pivot_exists arr) as [pivot Hpivot]; [lia|].
  rewrite Hpivot. cbv zeta.
  destruct (partition_shorter comparable key_func reverse arr pivot _
              Hkeys Hpivot) as [Hl Hr].
  destruct (IH (left_of key_func reverse (key_func pivot) arr))
    as [sl ->]; [now apply keys_in_left_of | lia |].
  destruct (IH (right_of key_func reverse (key_func pivot) arr))
    as [sr ->]; [now apply keys_in_right_of | lia |].
  eauto.
Qed.

Lemma quicksort_total reverse (arr : list A) :
  keys_in comparable key_func arr ->
  exists out, quicksort arr key_func reverse = Some out.
Proof. intros Hkeys. apply quicksort_rec_total; [assumption | lia]. Qed.

Lemma quicksort_rec_quicksort reverse (d : nat) (arr : list A) :
  keys_in comparable key_func arr ->
  (length arr < d)%nat ->
  quicksort_rec d arr key_func reverse = quicksort arr key_func reverse.
Proof.
  intros Hkeys Hlt.
  destruct (quicksort_total reverse arr Hkeys) as [out Hout].
  rewrite Hout. eapply quicksort_rec_mono; [|exact Hout]. lia.
Qed.

(** The body of the source function, with the recursive calls as calls of
    [quicksort] itself. *)

Lemma quicksort_short reverse (arr : list A) :
  (length arr <= 1)%nat -> quicksort arr key_func reverse = Some arr.
Proof.
  intros Hle. unfold quicksort. cbn [quicksort_rec].
  destruct (Nat.leb_spec (length arr) 1); [reflexivity|lia].
Qed.

Lemma quicksort_long reverse (arr : list A) pivot :
  keys_in comparable key_func arr ->
  (2 <= length arr)%nat ->
  nth_error arr (length arr / 2) = Some pivot ->
  exists sorted_left sorted_right,
    quicksort (left_of key_func reverse (key_func pivot) arr)
      key_func reverse = Some sorted_left /\
    quicksort (right_of key_func reverse (key_func pivot) arr)
      key_func reverse = Some sorted_right /\
    quicksort arr key_func reverse
    = Some ((sorted_left ++ middle_of key_func (key_func pivot) arr)
              ++ sorted_right).
Proof.
  intros Hkeys Hlen Hpivot.
  destruct (partition_shorter comparable key_func reverse arr pivot _
              Hkeys Hpivot) as [Hl Hr].
  pose proof (keys_in_left_of comparable key_func reverse (key_func pivot)
                arr Hkeys) as Hkl.
  pose proof (keys_in_right_of comparable key_func reverse (key_func pivot)
                arr Hkeys) as Hkr.
  destruct (quicksort_total reverse _ Hkl) as [sl Hsl].
  destruct (quicksort_total reverse _ Hkr) as [sr Hsr].
  exists sl, sr. split; [assumption|]. split; [assumption|].
  unfold quicksort at 1. cbn [quicksort_rec].
  destruct (Nat.leb_spec (length arr) 1); [lia|].
  rewrite Hpivot. cbv zeta.
  rewrite !quicksort_rec_quicksort by (assumption || lia).
  rewrite Hsl, Hsr. reflexivity.
Qed.

(** Induction along the calls: a relation between input and output that
    holds for short lists and is passed on from the two recursive calls
    holds for every call. *)

Lemma quicksort_ind (reverse : bool) (P : list A -> list A -> Prop) :
  (forall arr, (length arr <= 1)%nat -> P arr arr) ->
  (forall arr pivot sorted_left sorted_right,
      keys_in comparable key_func arr ->
      (2 <= length arr)%nat ->
      nth_error arr (length arr / 2) = Some pivot ->
      P (left_of key_func reverse (key_func pivot) arr) sorted_left ->
      P (right_of key_func reverse (key_func pivot) arr) sorted_right ->
      P arr ((sorted_left ++ middle_of key_func (key_func pivot) arr)
               ++ sorted_right)) ->
  forall arr, keys_in comparable key_func arr ->
    exists out, quicksort arr key_func reverse = Some out /\ P arr out.
Proof.
  intros Hshort Hlong arr.
  remember (length arr) as n eqn:Hn. revert arr Hn.
  induction n as [n IH] using lt_wf_ind. intros arr -> Hkeys.
  destruct (Nat.leb_spec (length arr) 1) as [Hle|Hgt].
  - exists arr. split; [now apply quicksort_short | now apply Hshort].
  - destruct (middle_pivot_exists arr) as [pivot Hpivot]; [lia|].
    destruct (partition_shorter comparable key_func reverse arr pivot _
                Hkeys Hpivot) as [Hl Hr].
    destruct (quicksort_long reverse arr pivot)
      as (sl & sr & Hsl & Hsr & ->); [assumption|lia|assumption|].
    destruct (IH _ Hl _ eq_refl) as (sl' & Hsl' & Pl);
      [now apply keys_in_left_of|].
    destruct (IH _ Hr _ eq_refl) as (sr' & Hsr' & Pr);
      [now apply keys_in_right_of|].
    rewrite Hsl in Hsl'. rewrite Hsr in Hsr'.
    injection Hsl' as <-. injection Hsr' as <-.
    eexists. split; [reflexivity|]. apply Hlong; assumption || lia.
Qed.
End QuicksortRecursion.

(** ** Ranking engine: permutation, order, stability *)

Section QuicksortCorrect.
Context {A K : Type} `{PyCmp K} (comparable : K -> Prop).
Context `{!PyCmpLaws comparable}.
Variable key_func : A -> K.

Lemma in_left_of reverse pv (arr : list A) x :
  In x (left_of key_func reverse pv arr) ->
  In x arr /\ sorts_before reverse (key_func x) pv = true.
Proof. rewrite left_of_filter. apply filter_In. Qed.

Lemma in_right_of reverse pv (arr : list A) x :
  In x (right_of key_func reverse pv arr) ->
  In x arr /\ sorts_after reverse (key_func x) pv = true.
Proof. rewrite right_of_filter. apply filter_In. Qed.

Lemma in_middle_of pv (arr : list A) x :
  In x (middle_of key_func pv arr) ->
  In x arr /\ py_eq (key_func x) pv = true.
Proof. apply filter_In. Qed.

Lemma equal_keys_in_order reverse pv (l : list A) :
  comparable pv ->
  (forall x, In x l -> comparable (key_func x)
                       /\ py_eq (key_func x) pv = true) ->
  StronglySorted (in_order key_func reverse) l.
Proof.
  intros Hpv. induction l as [|x l IH]; intros Hall; constructor.
  - apply IH. intros y Hy. apply Hall. now right.
  - apply List.Forall_forall. intros y Hy.
    destruct (Hall x) as [Hx Hxp]; [now left|].
    destruct (Hall y) as [Hy' Hyp]; [now right|].
    apply (py_eq_in_order comparable); try assumption.
    rewrite (py_eq_eq_l comparable _ pv) by assumption.
    rewrite (py_eq_sym comparable) by assumption. assumption.
Qed.

(** The output is a rearrangement of the input, in the requested order. *)

Lemma quicksort_perm_sorted reverse (arr : list A) :
  keys_in comparable key_func arr ->
  exists out,
    quicksort arr key_func reverse = Some out /\
    (Permutation arr out /\ StronglySorted (in_order key_func reverse) out).
Proof.
  apply (quicksort_ind comparable key_func reverse)
    with (P := fun arr out =>
                 Permutation arr out
                 /\ StronglySorted (in_order key_func reverse) out).
  - intros l Hlen. split; [reflexivity|].
    destruct l as [|x [|y l]]; cbn in Hlen; try lia; repeat constructor.
  - intros l pivot sl sr Hkeys Hlen Hpivot [Pl Sl] [Pr Sr].
    assert (Hpv : comparable (key_func pivot)).
    { apply Hkeys. eapply nth_error_In. eassumption. }
    split.
    + rewrite (partition_Permutation comparable key_func reverse
                 (key_func pivot) l Hpv Hkeys) at 1.
      now rewrite Pl, Pr.
    + assert (Hsl : forall x, In x sl ->
                comparable (key_func x) /\
                sorts_before reverse (key_func x) (key_func pivot) = true).
      { intros x Hx. apply (Permutation_in _ (Permutation_sym Pl)) in Hx.
        apply in_left_of in Hx as [Hx ?]. split; [now apply Hkeys|assumption]. }
      assert (Hsr : forall x, In x sr ->
                comparable (key_func x) /\
                sorts_before reverse (key_func pivot) (key_func x) = true).
      { intros x Hx. apply (Permutation_in _ (Permutation_sym Pr)) in Hx.
        apply in_right_of in Hx as [Hx Hafter].
        split; [now apply Hkeys|].
        rewrite <- (sorts_after_swap comparable) by auto. assumption. }
      assert (Hmid : forall x, In x (middle_of key_func (key_func pivot) l) ->
                comparable (key_func x) /\
                py_eq (key_func x) (key_func pivot) = true).
      { intros x Hx. apply in_middle_of in Hx as [Hx ?].
        split; [now apply Hkeys|assumption]. }
      apply StronglySorted_app_2; [|apply StronglySorted_app_2|]; trivial.
      * intros x y [Hx|Hx]%list_elem_of_In%in_app_or Hy%list_elem_of_In;
          destruct (Hsr y Hy) as [Cy Hy'].
        -- destruct (Hsl x Hx) as [Cx Hx'].
           apply (sorts_before_in_order comparable); try assumption.
           apply (sorts_before_trans comparable _ _ (key_func pivot));
             assumption.
        -- destruct (Hmid x Hx) as [Cx Hx'].
           apply (sorts_before_in_order comparable); try assumption.
           rewrite (sorts_before_eq_l comparable _ _ (key_func pivot));
             assumption.
      * intros x y Hx%list_elem_of_In Hy%list_elem_of_In.
        destruct (Hsl x Hx) as [Cx Hx']. destruct (Hmid y Hy) as [Cy Hy'].
        apply (sorts_before_in_order comparable); try assumption.
        rewrite (sorts_before_eq_r comparable _ _ (key_func pivot));
          assumption.
      * apply (equal_keys_in_order reverse (key_func pivot)); assumption.
Qed.

(** The records with a given key come out in the order they went in. *)

Lemma quicksort_keeps_key_order reverse (arr : list A) :
  keys_in comparable key_func arr ->
  exists out,
    quicksort arr key_func reverse = Some out /\
    forall k, comparable k ->
      List.filter (fun x => py_eq (key_func x) k) out
      = List.filter (fun x => py_eq (key_func x) k) arr.
Proof.
  apply (quicksort_ind comparable key_func reverse) with
    (P := fun arr out =>
            forall k, comparable k ->
              List.filter (fun x => py_eq (key_func x) k) out
              = List.filter (fun x => py_eq (key_func x) k) arr).
  - reflexivity.
  - intros l pivot sl sr Hkeys Hlen Hpivot Pl Pr k Hk.
    assert (Hpv : comparable (key_func pivot)).
    { apply Hkeys. eapply nth_error_In. eassumption. }
    rewrite !List.filter_app, Pl, Pr by assumption.
    rewrite left_of_filter, right_of_filter. unfold middle_of.
    set (pv := key_func pivot) in *.
    assert (Hb : forall x, In x l -> py_eq (key_func x) k = true ->
              sorts_before reverse (key_func x) pv = sorts_before reverse k pv).
    { intros x Hx Hxk. apply (sorts_before_eq_l comparable); auto. }
    assert (He : forall x, In x l -> py_eq (key_func x) k = true ->
              py_eq (key_func x) pv = py_eq k pv).
    { intros x Hx Hxk. apply (py_eq_eq_l comparable); auto. }
    assert (Ha : forall x, In x l -> py_eq (key_func x) k = true ->
              sorts_after reverse (key_func x) pv = sorts_after reverse k pv).
    { intros x Hx Hxk. rewrite !(sorts_after_swap comparable) by auto.
      apply (sorts_before_eq_r comparable); auto. }
    destruct (sorts_trichotomy comparable reverse k pv Hk Hpv)
      as [(Eb & Ee & Ea)|[(Eb & Ee & Ea)|(Eb & Ee & Ea)]];
      rewrite Eb in Hb; rewrite Ee in He; rewrite Ea in Ha.
    + rewrite (filter_filter_keep _ _ l Hb), (filter_filter_none _ _ l He),
        (filter_filter_none _ _ l Ha).
      now rewrite !app_nil_r.
    + rewrite (filter_filter_none _ _ l Hb), (filter_filter_keep _ _ l He),
        (filter_filter_none _ _ l Ha).
      now rewrite app_nil_r.
    + rewrite (filter_filter_none _ _ l Hb), (filter_filter_none _ _ l He),
        (filter_filter_keep _ _ l Ha).
      reflexivity.
Qed.

(** *** Keys without duplicates *)

Lemma distinct_keys_filter (f : A -> bool) (arr : list A) :
  distinct_keys key_func arr = true ->
  distinct_keys key_func (List.filter f arr) = true.
Proof.
  induction arr as [|x arr IH]; [reflexivity|].
  cbn [distinct_keys List.filter]. intros [Hx Hrest]%andb_true_iff.
  destruct (f x); [|now apply IH].
  cbn [distinct_keys]. rewrite IH by assumption.
  rewrite andb_true_r. apply forallb_forall. intros y Hy.
  apply filter_In in Hy as [Hy _].
  now apply (proj1 (forallb_forall _ _) Hx).
Qed.

Lemma distinct_keys_middle (arr : list A) pivot :
  keys_in comparable key_func arr ->
  distinct_keys key_func arr = true ->
  In pivot arr ->
  middle_of key_func (key_func pivot) arr = [pivot].
Proof.
  unfold middle_of.
  induction arr as [|x arr IH]; intros Hkeys Hd Hin; [destruct Hin|].
  apply (keys_in_cons comparable) in Hkeys as [Cx Hkeys].
  cbn [distinct_keys] in Hd. apply andb_true_iff in Hd as [Hx Hd].
  pose proof (proj1 (forallb_forall _ _) Hx) as Hx'.
  cbn [List.filter]. destruct Hin as [->|Hin].
  - rewrite (py_eq_refl comparable) by assumption. f_equal.
    apply filter_none. intros y Hy.
    rewrite (py_eq_sym comparable) by auto.
    apply negb_true_iff. now apply Hx'.
  - assert (py_eq (key_func pivot) (key_func x) = false) as Hne.
    { rewrite (py_eq_sym comparable) by auto.
      apply negb_true_iff. now apply Hx'. }
    rewrite (py_eq_sym comparable) by auto. rewrite Hne.
    now apply IH.
Qed.

(** C9.  When no two records of the sequence have equal keys, the
    ascending result read backwards is exactly the descending result. *)
Theorem quicksort_reverse_is_descending (arr : list A) :
  keys_in comparable key_func arr ->
  distinct_keys key_func arr = true ->
  exists ascending descending,
    quicksort arr key_func false = Some ascending /\
    quicksort arr key_func true = Some descending /\
    rev ascending = descending.
Proof.
  remember (length arr) as n eqn:Hn. revert arr Hn.
  induction n as [n IH] using lt_wf_ind. intros arr -> Hkeys Hd.
  destruct (Nat.leb_spec (length arr) 1) as [Hle|Hgt].
  - exists arr, arr. rewrite !quicksort_short by assumption.
    split; [reflexivity|]. split; [reflexivity|].
    destruct arr as [|x [|y l]]; cbn in Hle; try lia; reflexivity.
  - destruct (middle_pivot_exists arr) as [pivot Hpivot]; [lia|].
    destruct (partition_shorter comparable key_func false arr pivot _
                Hkeys Hpivot) as [Hl Hr].
    destruct (quicksort_long comparable key_func false arr pivot)
      as (al & ar & Hal & Har & ->); [assumption|lia|assumption|].
    destruct (quicksort_long comparable key_func true arr pivot)
      as (dl & dr & Hdl & Hdr & ->); [assumption|lia|assumption|].
    change (left_of key_func true (key_func pivot) arr)
      with (right_of key_func false (key_func pivot) arr) in Hdl.
    change (right_of key_func true (key_func pivot) arr)
      with (left_of key_func false (key_func pivot) arr) in Hdr.
    destruct (IH _ Hl (left_of key_func false (key_func pivot) arr) eq_refl)
      as (a1 & d1 & Ha1 & Hd1 & E1).
    { now apply keys_in_left_of. }
    { unfold left_of. now apply distinct_keys_filter. }
    destruct (IH _ Hr (right_of key_func false (key_func pivot) arr) eq_refl)
      as (a2 & d2 & Ha2 & Hd2 & E2).
    { now apply keys_in_right_of. }
    { unfold right_of. now apply distinct_keys_filter. }
    assert (al = a1) as -> by congruence.
    assert (ar = a2) as -> by congruence.
    assert (dl = d2) as -> by congruence.
    assert (dr = d1) as -> by congruence.
    eexists _, _. split; [reflexivity|]. split; [reflexivity|].
    rewrite (distinct_keys_middle arr pivot Hkeys Hd)
      by (eapply nth_error_In; eassumption).
    rewrite !rev_app_distr, E1, E2. cbn [rev app].
    rewrite <- !app_assoc. reflexivity.
Qed.
End QuicksortCorrect.

(** [code.py] sorts as [DSA_main.py] does without [reverse]. *)

Lemma simple_quicksort_rec {A K : Type} `{PyCmp K} (key_func : A -> K)
    (depth : nat) (arr : list A) :
  Simple.quicksort_rec depth arr key_func
  = quicksort_rec depth arr key_func false.
Proof.
  revert arr. induction depth as [|depth IH]; intros arr; [reflexivity|].
  cbn [Simple.quicksort_rec quicksort_rec].
  destruct (length arr <=? 1)%nat; [reflexivity|].
  destruct (nth_error arr (length arr / 2)) as [pivot|]; [|reflexivity].
  cbv zeta. unfold left_of, right_of, middle_of. rewrite !IH. reflexivity.
Qed.

Lemma simple_quicksort {A K : Type} `{PyCmp K} (key_func : A -> K)
    (arr : list A) :
  Simple.quicksort arr key_func = quicksort arr key_func false.
Proof. apply simple_quicksort_rec. Qed.

Section RankingEngine.
Context {A K : Type} `{PyCmp K} (comparable : K -> Prop).
Context `{!PyCmpLaws comparable}.
Variable key_func : A -> K.

(** C1.  Whatever the key and the direction, [quicksort] returns a list,
    and this list is a permutation of the input: same records with the same
    multiplicities, hence the same length. *)
Theorem quicksort_permutation (reverse : bool) (arr : list A) :
  keys_in comparable key_func arr ->
  exists out,
    quicksort arr key_func reverse = Some out /\
    Permutation arr out /\
    length out = length arr.
Proof.
  intros Hkeys.
  destruct (quicksort_perm_sorted comparable key_func reverse arr Hkeys)
    as (out & Hout & Hperm & _).
  exists out. split; [assumption|]. split; [assumption|].
  symmetry. now apply Permutation_length.
Qed.

(** C2.  The output is ordered by the key in the requested direction (no
    later record has a smaller key when ascending, a larger key when
    descending) and holds the records of the input, each as often as the
    input.  A list of at most one record is returned as it is.  A longer
    one is split around the key of the record at the middle index into the
    records whose key is smaller (larger, when descending), those whose key
    equals it, the pivot among them, and those whose key is larger
    (smaller); every record of the input is in one of the three groups, and
    the result is the sorted first group, then the equal group in input
    order, then the sorted last group. *)
Theorem quicksort_sorted (reverse : bool) (arr : list A) :
  keys_in comparable key_func arr ->
  exists out,
    quicksort arr key_func reverse = Some out /\
    StronglySorted (in_order key_func reverse) out /\
    Permutation arr out /\
    if (length arr <=? 1)%nat then out = arr
    else exists pivot before equal after sorted_before sorted_after,
        nth_error arr (length arr / 2) = Some pivot /\
        before
        = List.filter
            (fun x => if reverse
                      then py_gt (key_func x) (key_func pivot)
                      else py_lt (key_func x) (key_func pivot)) arr /\
        equal
        = List.filter (fun x => py_eq (key_func x) (key_func pivot)) arr /\
        after
        = List.filter
            (fun x => if reverse
                      then py_lt (key_func x) (key_func pivot)
                      else py_gt (key_func x) (key_func pivot)) arr /\
        In pivot equal /\
        Permutation arr ((before ++ equal) ++ after) /\
        quicksort before key_func reverse = Some sorted_before /\
        quicksort after key_func reverse = Some sorted_after /\
        out = (sorted_before ++ equal) ++ sorted_after.
Proof.
  intros Hkeys.
  destruct (quicksort_perm_sorted comparable key_func reverse arr Hkeys)
    as (out & Hout & Hperm & Hsorted).
  exists out. split; [assumption|]. split; [assumption|].
  split; [assumption|].
  destruct (Nat.leb_spec (length arr) 1) as [Hle|Hgt].
  - rewrite quicksort_short in Hout by assumption. congruence.
  - destruct (middle_pivot_exists arr) as [pivot Hpivot]; [lia|].
    destruct (quicksort_long comparable key_func reverse arr pivot)
      as (sl & sr & Hsl & Hsr & Hall); [assumption|lia|assumption|].
    assert (Hin : In pivot arr) by (eapply nth_error_In; eassumption).
    assert (Hleft : left_of key_func reverse (key_func pivot) arr
                    = List.filter
                        (fun x => if reverse
                                  then py_gt (key_func x) (key_func pivot)
                                  else py_lt (key_func x) (key_func pivot))
                        arr)
      by (unfold left_of; destruct reverse; reflexivity).
    assert (Hright : right_of key_func reverse (key_func pivot) arr
                     = List.filter
                         (fun x => if reverse
                                   then py_lt (key_func x) (key_func pivot)
                                   else py_gt (key_func x) (key_func pivot))
                         arr)
      by (unfold right_of; destruct reverse; reflexivity).
    pose proof (partition_Permutation comparable key_func reverse
                  (key_func pivot) arr (Hkeys pivot Hin) Hkeys) as Hparts.
    rewrite Hleft in Hsl, Hparts. rewrite Hright in Hsr, Hparts.
    unfold middle_of in Hall, Hparts.
    eexists pivot, _, _, _, sl, sr.
    split; [assumption|]. split; [reflexivity|]. split; [reflexivity|].
    split; [reflexivity|]. split; [|split; [assumption|]].
    + apply filter_In. split; [assumption|].
      apply (py_eq_refl comparable). now apply Hkeys.
    + split; [assumption|]. split; [assumption|]. congruence.
Qed.

(** C3.  The sort is stable in both directions: for every key, the records
    of the output that carry this key are those of the input, in the order
    of the input; in particular the records whose key equals that of a
    given record of the input keep their relative order. *)
Theorem quicksort_stable (reverse : bool) (arr : list A) :
  keys_in comparable key_func arr ->
  exists out,
    quicksort arr key_func reverse = Some out /\
    (forall k, comparable k ->
       List.filter (fun x => py_eq (key_func x) k) out
       = List.filter (fun x => py_eq (key_func x) k) arr) /\
    (forall x, In x arr ->
       List.filter (fun y => py_eq (key_func y) (key_func x)) out
       = List.filter (fun y => py_eq (key_func y) (key_func x)) arr).
Proof.
  intros Hkeys.
  destruct (quicksort_keeps_key_order comparable key_func reverse arr Hkeys)
    as (out & Hout & Hstable).
  exists out. split; [assumption|]. split; [assumption|].
  intros x Hx. apply Hstable. now apply Hkeys.
Qed.
End RankingEngine.

(** ** Floats as keys *)

Lemma float_lt_before (f g : float) :
  not_nan f -> not_nan g -> float_lt f g = true <-> float_before f g.
Proof.
  unfold not_nan, float_lt, SFltb, float_before.
  destruct f as [s1|s1| |s1 m1 e1], g as [s2|s2| |s2 m2 e2];
    try congruence; intros _ _;
    try destruct s1; try destruct s2; cbn;
    try (split; [discriminate | lia]);
    try (split; [lia | reflexivity]).
  all: rewrite ?Pos.compare_cont_spec; cbn.
  all: destruct (Z.compare_spec e1 e2), (Pos.compare_spec m1 m2); cbn;
    split; try discriminate; try reflexivity; lia.
Qed.

Lemma float_eq_same (f g : float) :
  not_nan f -> not_nan g -> float_eq f g = true <-> float_same f g.
Proof.
  unfold not_nan, float_eq, SFeqb, float_same.
  destruct f as [s1|s1| |s1 m1 e1], g as [s2|s2| |s2 m2 e2];
    try congruence; intros _ _;
    try destruct s1; try destruct s2; cbn;
    try (split; [discriminate | lia]);
    try (split; [lia | reflexivity]).
  all: rewrite ?Pos.compare_cont_spec; cbn.
  all: destruct (Z.compare_spec e1 e2), (Pos.compare_spec m1 m2); cbn;
    split; try discriminate; try reflexivity; lia.
Qed.

#[export] Instance float_PyCmpLaws : PyCmpLaws not_nan.
Proof.
  split; cbn [py_lt py_eq py_gt float_PyCmp]; intros.
  - reflexivity.
  - apply eq_true_iff_eq.
    rewrite andb_true_iff, !negb_true_iff, <- !not_true_iff_false.
    rewrite float_eq_same, !float_lt_before by assumption.
    unfold float_same, float_before. lia.
  - apply not_true_iff_false. rewrite float_lt_before by assumption.
    unfold float_before. lia.
  - rewrite float_lt_before in * by assumption.
    unfold float_before in *. lia.
  - rewrite float_eq_same in * by assumption.
    unfold float_same in *. lia.
Qed.

(** Rounding never produces NaN from a non-negative mantissa. *)

Lemma iter_pos_preserves {T : Type} (f : T -> T) (P : T -> Prop) :
  (forall x, P x -> P (f x)) ->
  forall n x, P x -> P (SpecFloat.iter_pos f n x).
Proof.
  intros Hf. induction n as [n IH|n IH|]; intros x Hx; cbn; auto.
Qed.

Lemma shr_1_nonneg (mrs : shr_record) :
  0 <= shr_m mrs -> 0 <= shr_m (shr_1 mrs).
Proof.
  destruct mrs as [m r s]. cbn.
  destruct m as [|[p|p|]|[p|p|]]; cbn; lia.
Qed.

Lemma shr_fexp_nonneg (m e : Z) (l : location) :
  0 <= m -> 0 <= shr_m (fst (shr_fexp prec emax m e l)).
Proof.
  intros Hm. unfold shr_fexp, shr.
  assert (Hstart : 0 <= shr_m (shr_record_of_loc m l)).
  { destruct l as [|[]]; assumption. }
  destruct (fexp prec emax (Zdigits2 m + e) - e); cbn [fst]; try assumption.
  apply iter_pos_preserves; [apply shr_1_nonneg | assumption].
Qed.

Lemma round_nearest_even_nonneg (m : Z) (l : location) :
  0 <= m -> 0 <= round_nearest_even m l.
Proof.
  intros Hm. destruct l as [|[]]; cbn; try assumption; [|lia].
  destruct (Z.even m); lia.
Qed.

Lemma binary_round_aux_not_nan (s : bool) (m e : Z) (l : location) :
  0 <= m -> not_nan (binary_round_aux prec emax s m e l).
Proof.
  intros Hm. unfold binary_round_aux, not_nan.
  pose proof (shr_fexp_nonneg m e l Hm) as H1.
  destruct (shr_fexp prec emax m e l) as [mrs1 e1]. cbn [fst] in H1.
  pose proof (shr_fexp_nonneg _ e1 loc_Exact
                (round_nearest_even_nonneg (shr_m mrs1)
                   (loc_of_shr_record mrs1) H1)) as H2.
  destruct (shr_fexp prec emax _ e1 loc_Exact) as [mrs2 e2].
  cbn [fst] in H2.
  destruct (shr_m mrs2); [discriminate| |lia].
  destruct (e2 <=? emax - prec); discriminate.
Qed.

Lemma binary_normalize_not_nan (m e : Z) (s : bool) :
  not_nan (binary_normalize prec emax m e s).
Proof.
  unfold binary_normalize, binary_round.
  destruct m as [|p|p]; [discriminate| |];
    destruct (shl_align _ _ _) as [mz ez];
    apply binary_round_aux_not_nan; lia.
Qed.

Lemma float_of_int_not_nan (z : Z) (f : float) :
  float_of_int z = Ok f -> not_nan f /\ (forall s, f <> S754_infinity s).
Proof.
  unfold float_of_int. pose proof (binary_normalize_not_nan z 0 false) as Hn.
  destruct (binary_normalize prec emax z 0 false);
    intros [= <-]; split; try assumption; discriminate.
Qed.

Lemma binary_round_aux_sign (s : bool) (m e : Z) (l : location) :
  match binary_round_aux prec emax s m e l with
  | S754_zero s' | S754_finite s' _ _ | S754_infinity s' => s' = s
  | S754_nan => True
  end.
Proof.
  unfold binary_round_aux.
  destruct (shr_fexp prec emax m e l) as [mrs1 e1].
  destruct (shr_fexp prec emax _ e1 loc_Exact) as [mrs2 e2].
  destruct (shr_m mrs2); [reflexivity | | exact I].
  destruct (e2 <=? emax - prec); reflexivity.
Qed.

Lemma float_of_int_sign (z : Z) (f : float) :
  0 <= z -> float_of_int z = Ok f ->
  match f with
  | S754_zero false | S754_finite false _ _ => True
  | _ => False
  end.
Proof.
  intros Hz Hf. destruct (float_of_int_not_nan z f Hf) as [Hn Hi].
  revert Hf. unfold float_of_int, binary_normalize, binary_round.
  destruct z as [|p|p]; [intros [= <-]; exact I| |lia].
  destruct (shl_align _ _ _) as [mz ez].
  pose proof (binary_round_aux_sign false (Z.pos mz) ez loc_Exact) as Hs.
  destruct (binary_round_aux prec emax false (Z.pos mz) ez loc_Exact);
    intros [= <-]; subst; try exact I; try now apply Hn.
Qed.

Lemma SFsqrt_not_nan (f : float) :
  match f with
  | S754_zero false | S754_finite false _ _ => True
  | _ => False
  end ->
  not_nan (SFsqrt prec emax f).
Proof.
  destruct f as [[]|[]| |[] m e]; intros []; cbn [SFsqrt]; try discriminate.
  destruct (SFsqrt_core_binary prec emax (Z.pos m) e) as [[mz ez] lz] eqn:Hcore.
  apply binary_round_aux_not_nan.
  unfold SFsqrt_core_binary in Hcore.
  destruct (Z.sqrtrem _) as [q r] eqn:Hsq. injection Hcore as <- _ _.
  pose proof (Z.sqrtrem_sqrt
                match e - 2 * Z.min
                   (fexp prec emax (Z.div2 (Zdigits2 (Z.pos m) + e + 1)))
                   (Z.div2 e) with
                | 0 => Z.pos m
                | Z.pos _ => Z.shiftl (Z.pos m)
                    (e - 2 * Z.min
                       (fexp prec emax (Z.div2 (Zdigits2 (Z.pos m) + e + 1)))
                       (Z.div2 e))
                | Z.neg _ => 0
                end) as Hs.
  rewrite Hsq in Hs. cbn [fst] in Hs. rewrite Hs. apply Z.sqrt_nonneg.
Qed.

Lemma SFdiv_not_nan (x y : float) :
  not_nan x -> (forall s, x <> S754_infinity s) ->
  not_nan y -> (forall s, y <> S754_zero s) ->
  not_nan (SFdiv prec emax x y).
Proof.
  unfold not_nan. intros Hx Hxi Hy Hyz.
  destruct x as [sx|sx| |sx mx ex], y as [sy|sy| |sy my ey];
    cbn [SFdiv];
    try discriminate; try congruence;
    try (exfalso; exact (Hyz sy eq_refl));
    try (exfalso; exact (Hxi sx eq_refl)).
  - destruct (SFdiv_core_binary prec emax (Z.pos mx) ex (Z.pos my) ey)
      as [[mz ez] lz] eqn:Hcore.
    apply binary_round_aux_not_nan.
    unfold SFdiv_core_binary in Hcore.
    destruct (Z.div_eucl _ (Z.pos my)) as [q r] eqn:Hdiv.
    injection Hcore as <- _ _.
    match type of Hdiv with
    | Z.div_eucl ?a ?b = _ =>
        assert (Ha : 0 <= a);
        [| pose proof (Z_div_mod a b eq_refl) as Hdm;
           rewrite Hdiv in Hdm; nia]
    end.
    destruct (ex - ey - _); try lia. apply Z.shiftl_nonneg. lia.
Qed.

(** A value score is never NaN. *)

Lemma value_score_not_nan (c : car) (score : float) :
  _get_value_score c = Ok score -> not_nan score.
Proof.
  unfold _get_value_score, pow_half.
  destruct (float_of_int (car_age c)) as [base|] eqn:Hbase; [|discriminate].
  cbn [mbind result_bind].
  destruct (float_of_int (price c)) as [p|] eqn:Hp; [|discriminate].
  cbn [mbind result_bind].
  assert (Hage : 0 <= car_age c) by (unfold car_age; lia).
  pose proof (SFsqrt_not_nan base (float_of_int_sign _ _ Hage Hbase)) as Hroot.
  destruct (float_of_int_not_nan _ _ Hp) as [Hpn Hpi].
  unfold float_div.
  destruct (SFsqrt prec emax base) as [s|s| |s m e] eqn:Hsq;
    try discriminate; try (exfalso; now apply Hroot);
    intros [= <-]; apply SFdiv_not_nan; try assumption; discriminate.
Qed.

Lemma value_key_comparable (arr : list car) :
  (forall c, In c arr -> exists score, _get_value_score c = Ok score) ->
  keys_in not_nan value_key arr.
Proof.
  intros Hall c Hc. destruct (Hall c Hc) as [score Hscore].
  unfold value_key. rewrite Hscore. eapply value_score_not_nan. eassumption.
Qed.

(** Ranking by value: on cars whose score is defined, the keys can all be
    compared, so the sort returns an ordered rearrangement that keeps the
    input order among equal scores. *)

Lemma quicksort_by_value_score (reverse : bool) (arr : list car) :
  (forall c, In c arr -> exists score, _get_value_score c = Ok score) ->
  exists out,
    quicksort arr value_key reverse = Some out /\
    Permutation arr out /\
    StronglySorted (in_order value_key reverse) out /\
    forall k, not_nan k ->
      List.filter (fun x => py_eq (value_key x) k) out
      = List.filter (fun x => py_eq (value_key x) k) arr.
Proof.
  intros Hscores. pose proof (value_key_comparable arr Hscores) as Hkeys.
  destruct (quicksort_perm_sorted not_nan value_key reverse arr Hkeys)
    as (out & Hout & Hperm & Hsorted).
  destruct (quicksort_keeps_key_order not_nan value_key reverse arr Hkeys)
    as (out' & Hout' & Hstable).
  assert (out' = out) as -> by congruence.
  exists out. repeat split; trivial.
Qed.

(** ** Record normalizer *)

Section NormalizerCorrect.
Context `{Builtins}.

(** What it takes for the body of [_clean_row_data] to build a record. *)

Lemma clean_row_body_accepts (r : row) (c : car) :
  clean_row_body r = Ok (Some c) <->
  exists p m y ip im,
    py_float (get r "price" (PInt 0)) = Ok p /\
    py_float (get r "mileage" (PInt 0)) = Ok m /\
    py_int (get r "year" (PInt 0)) = Ok y /\
    float_lt p float_zero = false /\
    float_lt m float_zero = false /\
    1900 <= y <= 2025 /\
    clean_brand r <> "" /\
    clean_model r <> "" /\
    int_of_float p = Ok ip /\
    int_of_float m = Ok im /\
    c = {| price := ip; brand := clean_brand r; model := clean_model r;
           year := y; title_status := clean_title_status r;
           mileage := im; color := clean_color r |}.
Proof.
  unfold clean_row_body.
  fold (clean_brand r) (clean_model r) (clean_color r) (clean_title_status r).
  split.
  - destruct (py_float (get r "price" (PInt 0))) as [p|]; [|discriminate].
    destruct (py_float (get r "mileage" (PInt 0))) as [m|]; [|discriminate].
    destruct (py_int (get r "year" (PInt 0))) as [y|]; [|discriminate].
    cbn [mbind result_bind].
    destruct (float_lt p float_zero) eqn:Hp; [discriminate|].
    destruct (float_lt m float_zero) eqn:Hm; [discriminate|].
    destruct (Z.ltb_spec y 1900); [discriminate|].
    destruct (Z.gtb_spec y 2025); [discriminate|].
    cbn [orb].
    destruct (String.eqb_spec (clean_brand r) ""); [discriminate|].
    destruct (String.eqb_spec (clean_model r) ""); [discriminate|].
    cbn [orb].
    destruct (int_of_float p) as [ip|] eqn:Hip; [|discriminate].
    destruct (int_of_float m) as [im|] eqn:Him; [|discriminate].
    cbn [mbind result_bind]. intros [= <-].
    exists p, m, y, ip, im. repeat split; trivial; lia.
  - intros (p & m & y & ip & im & -> & -> & -> & Hp & Hm & Hy & Hb & Hmo
            & Hip & Him & ->).
    cbn [mbind result_bind]. rewrite Hp, Hm. cbn [orb].
    destruct (Z.ltb_spec y 1900); [lia|].
    destruct (Z.gtb_spec y 2025); [lia|].
    cbn [orb].
    destruct (String.eqb_spec (clean_brand r) ""); [contradiction|].
    destruct (String.eqb_spec (clean_model r) ""); [contradiction|].
    cbn [orb]. rewrite Hip, Him. reflexivity.
Qed.

Lemma clean_row_data_accepts (r : row) (c : car) :
  _clean_row_data r = Ok (Some c) <-> clean_row_body r = Ok (Some c).
Proof.
  unfold _clean_row_data.
  destruct (clean_row_body r) as [[c'|]|[]]; split; congruence.
Qed.

(** A float that is not below zero truncates to a non-negative integer. *)

Lemma int_of_float_nonneg (f : float) (z : Z) :
  float_lt f float_zero = false -> int_of_float f = Ok z -> 0 <= z.
Proof.
  destruct f as [s|s| |[] m e]; cbn; try discriminate.
  - intros _ [= <-]. lia.
  - intros _ [= <-]. apply Z.shiftl_nonneg. lia.
Qed.

(** The range test rejects: a row whose numbers convert but fall outside
    the ranges, or whose brand or model is empty once cleaned, gives
    [None]. *)

Lemma clean_row_data_rejects (r : row) (p m : float) (y : Z) :
  py_float (get r "price" (PInt 0)) = Ok p ->
  py_float (get r "mileage" (PInt 0)) = Ok m ->
  py_int (get r "year" (PInt 0)) = Ok y ->
  float_lt p float_zero = true \/ float_lt m float_zero = true \/
  y < 1900 \/ 2025 < y \/ clean_brand r = "" \/ clean_model r = "" ->
  _clean_row_data r = Ok None.
Proof.
  intros Hp Hm Hy Hbad. unfold _clean_row_data, clean_row_body.
  fold (clean_brand r) (clean_model r) (clean_color r) (clean_title_status r).
  rewrite Hp, Hm, Hy. cbn [mbind result_bind].
  destruct (float_lt p float_zero); [reflexivity|].
  destruct (float_lt m float_zero); [reflexivity|].
  destruct (Z.ltb_spec y 1900); [reflexivity|].
  destruct (Z.gtb_spec y 2025); [reflexivity|].
  cbn [orb].
  destruct (String.eqb_spec (clean_brand r) ""); [reflexivity|].
  destruct (String.eqb_spec (clean_model r) ""); [reflexivity|].
  exfalso. intuition (discriminate || lia).
Qed.

(** C4.  A record that the normalizer returns has a non-negative price and
    mileage, a year from 1900 to 2025, and a brand and a model that are not
    empty, these being the trimmed texts of the row; and a row whose
    converted values break one of these bounds is rejected. *)
Theorem clean_row_data_invariants (r : row) :
  (forall c, _clean_row_data r = Ok (Some c) ->
     0 <= price c /\ 0 <= mileage c /\ 1900 <= year c <= 2025 /\
     brand c = clean_brand r /\ brand c <> "" /\
     model c = clean_model r /\ model c <> "") /\
  (forall p m y,
     py_float (get r "price" (PInt 0)) = Ok p ->
     py_float (get r "mileage" (PInt 0)) = Ok m ->
     py_int (get r "year" (PInt 0)) = Ok y ->
     float_lt p float_zero = true \/ float_lt m float_zero = true \/
     y < 1900 \/ 2025 < y \/ clean_brand r = "" \/ clean_model r = "" ->
     _clean_row_data r = Ok None).
Proof.
  split; [|apply clean_row_data_rejects].
  intros c Hc. apply clean_row_data_accepts, clean_row_body_accepts in Hc.
  destruct Hc as (p & m & y & ip & im & _ & _ & _ & Hp & Hm & Hy & Hb & Hmo
                  & Hip & Him & ->).
  cbn. repeat split; trivial; try lia.
  - apply (int_of_float_nonneg p); assumption.
  - apply (int_of_float_nonneg m); assumption.
Qed.
End NormalizerCorrect.

Section MissingFields.
Context `{Builtins}.

Lemma get_missing (r : row) (key : string) (default : pyval) :
  r !! key = None -> get r key default = default.
Proof. unfold get. now intros ->. Qed.

(** On a row read from a file, [float] raises nothing but [ValueError] and
    [TypeError]. *)

Lemma py_float_csv (r : row) (key : string) :
  csv_row r ->
  (exists f, py_float (get r key (PInt 0)) = Ok f) \/
  py_float (get r key (PInt 0)) = Raise ValueError \/
  py_float (get r key (PInt 0)) = Raise TypeError.
Proof.
  intros Hcsv. unfold get.
  destruct (r !! key) as [[s|z|]|] eqn:Hkey; cbn.
  - destruct (float_of_string s); eauto.
  - now apply Hcsv in Hkey.
  - auto.
  - left. eexists. reflexivity.
Qed.

(** C10.  A row without a [price] key (or without a [mileage] key) whose
    other fields pass the tests is accepted, with 0 for the missing number;
    a row without a [year] key is rejected, the default year 0 being out of
    range. *)
Theorem missing_number_defaults (r : row) :
  (r !! "price" = None ->
   forall m im y,
     py_float (get r "mileage" (PInt 0)) = Ok m ->
     float_lt m float_zero = false ->
     int_of_float m = Ok im ->
     py_int (get r "year" (PInt 0)) = Ok y ->
     1900 <= y <= 2025 ->
     clean_brand r <> "" -> clean_model r <> "" ->
     _clean_row_data r
     = Ok (Some {| price := 0; brand := clean_brand r;
                   model := clean_model r; year := y;
                   title_status := clean_title_status r;
                   mileage := im; color := clean_color r |})) /\
  (r !! "mileage" = None ->
   forall p ip y,
     py_float (get r "price" (PInt 0)) = Ok p ->
     float_lt p float_zero = false ->
     int_of_float p = Ok ip ->
     py_int (get r "year" (PInt 0)) = Ok y ->
     1900 <= y <= 2025 ->
     clean_brand r <> "" -> clean_model r <> "" ->
     _clean_row_data r
     = Ok (Some {| price := ip; brand := clean_brand r;
                   model := clean_model r; year := y;
                   title_status := clean_title_status r;
                   mileage := 0; color := clean_color r |})) /\
  (r !! "year" = None -> csv_row r -> _clean_row_data r = Ok None).
Proof.
  split; [|split].
  - intros Hmiss m im y Hm Hm0 Him Hy Hrange Hb Hmo.
    apply clean_row_data_accepts, clean_row_body_accepts.
    exists float_zero, m, y, 0, im.
    rewrite (get_missing r "price") by assumption.
    repeat split; trivial; lia.
  - intros Hmiss p ip y Hp Hp0 Hip Hy Hrange Hb Hmo.
    apply clean_row_data_accepts, clean_row_body_accepts.
    exists p, float_zero, y, ip, 0.
    rewrite (get_missing r "mileage") by assumption.
    repeat split; trivial; lia.
  - intros Hmiss Hcsv.
    destruct (py_float_csv r "price" Hcsv) as [[p Hp]|Hp];
      [|unfold _clean_row_data, clean_row_body;
        destruct Hp as [-> | ->]; reflexivity].
    destruct (py_float_csv r "mileage" Hcsv) as [[m Hm]|Hm];
      [|unfold _clean_row_data, clean_row_body; rewrite Hp;
        destruct Hm as [-> | ->]; reflexivity].
    apply (clean_row_data_rejects r p m 0); trivial.
    + rewrite (get_missing r "year") by assumption. reflexivity.
    + lia.
Qed.
End MissingFields.

(** ** Filter engine *)

Section FilterEngine.
Context `{Builtins}.

Lemma apply_price_filter_ceiling (line : string) (cars : list car) :
  apply_price_filter (str_strip line) cars
  = List.filter (under_ceiling (price_ceiling line)) cars.
Proof.
  unfold apply_price_filter, price_ceiling, under_ceiling.
  destruct (String.eqb (str_strip line) "");
    [symmetry; now apply filter_all|].
  destruct (float_of_string (str_strip line));
    [reflexivity | symmetry; now apply filter_all].
Qed.

Lemma apply_year_filter_floor (line : string) (cars : list car) :
  apply_year_filter (str_strip line) cars
  = List.filter (over_floor (year_floor line)) cars.
Proof.
  unfold apply_year_filter, year_floor, over_floor.
  destruct (String.eqb (str_strip line) "");
    [symmetry; now apply filter_all|].
  destruct (int_of_string (str_strip line));
    [reflexivity | symmetry; now apply filter_all].
Qed.

Lemma filter_filter_andb {A : Type} (f g : A -> bool) (l : list A) :
  List.filter g (List.filter f l) = List.filter (fun x => f x && g x) l.
Proof.
  induction l as [|x l IH]; [reflexivity|].
  cbn [List.filter]. destruct (f x); cbn [andb List.filter];
    [destruct (g x)|]; now rewrite IH.
Qed.

Lemma filter_sublist {A : Type} (f : A -> bool) (l : list A) :
  sublist (List.filter f l) l.
Proof.
  induction l as [|x l IH]; [constructor|].
  cbn [List.filter]. destruct (f x); now constructor.
Qed.

(** C5.  With the two answers of the user at hand, [filter_cars] returns
    the cars of the brand that pass, in this order, the test on the title
    status, which must be the text [clean vehicle], the price ceiling and
    the year floor, a stage without threshold letting every car through.
    This is the list of the cars of the brand that pass all active tests:
    a car is returned exactly when it is in the group of the brand, its
    title status is [clean vehicle], its price is at most the ceiling if
    there is one and its year at least the floor if there is one.  The
    cars come in their original order, and the object is left as it
    was. *)
Theorem filter_cars_conjunction (self : CarRankingSystem) (brand : string)
    (line1 line2 : string) (rest : list string) :
  let cars := default [] (cars_by_brand self !! brand) in
  let max_price := price_ceiling line1 in
  let min_year := year_floor line2 in
  let staged :=
    List.filter (over_floor min_year)
      (List.filter (under_ceiling max_price)
         (List.filter
            (fun c => String.eqb (title_status c) "clean vehicle") cars)) in
  (exists stdin',
     filter_cars self brand (line1 :: line2 :: rest)
     = (self, Ok staged, stdin')) /\
  staged
  = List.filter
      (fun c => String.eqb (title_status c) "clean vehicle"
                && under_ceiling max_price c && over_floor min_year c)
      cars /\
  (forall c, In c staged <->
     In c cars /\ title_status c = "clean vehicle" /\
     (forall m, max_price = Some m -> int_le_float (price c) m = true) /\
     (forall y, min_year = Some y -> y <= year c)) /\
  sublist staged cars /\
  (forall l, List.filter (under_ceiling None) l = l) /\
  (forall l, List.filter (over_floor None) l = l).
Proof.
  cbv zeta.
  change (fun c : car => String.eqb (title_status c) "clean vehicle")
    with is_clean.
  set (cars := default [] (cars_by_brand self !! brand)).
  set (max_price := price_ceiling line1).
  set (min_year := year_floor line2).
  split; [|split; [|split; [|split; [|split]]]].
  - unfold filter_cars. fold cars.
    destruct (List.filter is_clean cars) as [|c0 clean] eqn:Hclean.
    + eexists. reflexivity.
    + cbn [input]. rewrite apply_price_filter_ceiling. fold max_price.
      destruct (List.filter (under_ceiling max_price) (c0 :: clean))
        as [|c1 cheap] eqn:Hcheap.
      * eexists. reflexivity.
      * rewrite apply_year_filter_floor. fold min_year.
        eexists. reflexivity.
  - rewrite (filter_filter_andb is_clean (under_ceiling max_price)).
    rewrite filter_filter_andb. reflexivity.
  - intros c. rewrite !filter_In. unfold is_clean. rewrite String.eqb_eq.
    unfold under_ceiling, over_floor.
    destruct max_price as [m|], min_year as [y|]; split.
    + intros [[[Hin Htitle] Hprice] Hyear%Z.leb_le]. repeat split; auto.
      * now intros ? [= <-].
      * now intros ? [= <-].
    + intros (Hin & Htitle & Hprice & Hyear). repeat split; auto.
      apply Z.leb_le. auto.
    + intros [[[Hin Htitle] Hprice] _]. repeat split; auto.
      * now intros ? [= <-].
      * discriminate.
    + intros (Hin & Htitle & Hprice & _). repeat split; auto.
    + intros [[[Hin Htitle] _] Hyear%Z.leb_le]. repeat split; auto.
      * discriminate.
      * now intros ? [= <-].
    + intros (Hin & Htitle & _ & Hyear). repeat split; auto.
      apply Z.leb_le. auto.
    + intros [[[Hin Htitle] _] _]. repeat split; auto; discriminate.
    + intros (Hin & Htitle & _ & _). repeat split; auto.
  - etransitivity; [apply filter_sublist|].
    etransitivity; apply filter_sublist.
  - intros l. now apply filter_all.
  - intros l. now apply filter_all.
Qed.
End FilterEngine.

(** ** Summary statistics *)

Lemma int_truediv_ok (a b : Z) :
  b <> 0 -> int_truediv a b = Ok (inject_Z a / inject_Z b)%Q.
Proof.
  intros Hb. unfold int_truediv. destruct (Z.eqb_spec b 0); [lia|reflexivity].
Qed.

Lemma display_cars_ok (cars : list car) :
  exists lines, display_cars cars = Ok lines.
Proof.
  induction cars as [|c cars [lines IH]]; [eexists; reflexivity|].
  cbn [display_cars]. cbv zeta.
  destruct (Z.ltb_spec 0 (2025 - year c)).
  - rewrite int_truediv_ok by lia. cbn [mbind result_bind].
    rewrite IH. eexists. reflexivity.
  - cbn [mbind result_bind]. rewrite IH. eexists. reflexivity.
Qed.

(** Neither presenter raises: every division is guarded. *)

Lemma brand_statistics_ok (cars : list car) :
  exists line, brand_statistics cars = Ok line.
Proof.
  unfold brand_statistics.
  destruct (List.filter is_clean cars) as [|c clean]; [eexists; reflexivity|].
  rewrite int_truediv_ok by (cbn [List.map length]; lia).
  eexists. reflexivity.
Qed.

Lemma display_results_ok (cars : list car) (limit : Z) :
  exists screen, display_results cars limit = Ok screen.
Proof.
  unfold display_results. destruct cars as [|c cars]; [eexists; reflexivity|].
  destruct (display_cars_ok
              (slice_to (c :: cars)
                 (Z.min limit (Z.of_nat (length (c :: cars))))))
    as [top ->].
  cbn [mbind result_bind].
  destruct (1 <? length (c :: cars))%nat eqn:Hlen.
  - rewrite int_truediv_ok by (cbn [List.map length]; lia).
    eexists. reflexivity.
  - eexists. reflexivity.
Qed.

Lemma brand_lines_ok (index : gmap string (list car)) (brands : list string) :
  exists lines, brand_lines index brands = Ok lines.
Proof.
  induction brands as [|b brands [lines IH]]; [eexists; reflexivity|].
  cbn [brand_lines].
  destruct (brand_statistics_ok (default [] (index !! b))) as [line ->].
  cbn [mbind result_bind]. rewrite IH. eexists. reflexivity.
Qed.

Lemma sorted_keys_singleton {V : Type} (key : string) (v : V) :
  sorted_keys ({[ key := v ]} : gmap string V) = [key].
Proof.
  unfold sorted_keys. rewrite dom_singleton_L, elements_singleton.
  reflexivity.
Qed.

(** C6, as the code has it.  For a single record with a clean title the
    line of the brand statistics has count 1 and minimum, maximum and
    average all equal to the price of the record, and this is the one line
    that [_show_brand_statistics] prints for a collection made of that
    record.  [display_results] lists a single record without a summary
    line: its count and average are printed for two records or more.  On an
    empty sequence the brand statistics print no line and [display_results]
    reports that no cars were found; neither ever raises, so nothing is
    divided by zero. *)
Theorem single_record_statistics (c : car) (limit : Z) :
  (is_clean c = true ->
   exists line,
     brand_statistics [c] = Ok (Some line) /\
     _show_brand_statistics
       {| cars_data := [c]; cars_by_brand := {[ brand c := [c] ]} |}
     = Ok [(brand c, line)] /\
     stat_count line = 1%nat /\
     min_price line = price c /\
     max_price line = price c /\
     (avg_price line == inject_Z (price c))%Q) /\
  (exists top more, display_results [c] limit = Ok (Listing top more None)) /\
  brand_statistics [] = Ok None /\
  display_results [] limit = Ok NoCarsFound /\
  (forall cars, exists line, brand_statistics cars = Ok line) /\
  (forall self, exists lines, _show_brand_statistics self = Ok lines) /\
  (forall cars, exists screen, display_results cars limit = Ok screen).
Proof.
  split; [|split; [|split; [|split; [|split; [|split]]]]].
  - intros Hclean.
    assert (Hline : exists line,
              brand_statistics [c] = Ok (Some line) /\
              stat_count line = 1%nat /\
              min_price line = price c /\
              max_price line = price c /\
              (avg_price line == inject_Z (price c))%Q).
    { unfold brand_statistics. cbn [List.filter].
      rewrite Hclean. cbn [List.map length sum fold_left py_min py_max].
      rewrite int_truediv_ok by lia. cbn [mbind result_bind].
      eexists. split; [reflexivity|]. cbn.
      repeat split. rewrite Z.add_0_l. change (Z.of_nat 1) with 1.
      unfold Qeq, Qdiv, Qmult, Qinv, inject_Z. cbn. lia. }
    destruct Hline as (line & Hline & Hfigures).
    exists line. split; [assumption|]. split; [|assumption].
    unfold _show_brand_statistics. cbn [cars_by_brand].
    rewrite sorted_keys_singleton. cbn [brand_lines].
    rewrite lookup_singleton_eq. cbn [from_option id].
    rewrite Hline. reflexivity.
  - unfold display_results.
    destruct (display_cars_ok (slice_to [c] (Z.min limit (Z.of_nat (length [c])))))
      as [top ->].
    cbn. eauto.
  - reflexivity.
  - reflexivity.
  - apply brand_statistics_ok.
  - intros self. apply brand_lines_ok.
  - intros cars. apply display_results_ok.
Qed.

(** ** Loading *)

Section Loading.
Context `{Builtins}.

Lemma no_row_raises_cons (r : row) (rows : list row) :
  no_row_raises (r :: rows) ->
  (exists outcome, _clean_row_data r = Ok outcome) /\ no_row_raises rows.
Proof.
  intros Hall. split; [apply Hall; now left|].
  intros r' Hr'. apply Hall. now right.
Qed.

(** The loop appends the accepted rows to what the object already holds. *)

Lemma load_rows_appends (data : list car) (skipped : nat) (rows : list row) :
  no_row_raises rows ->
  exists skipped',
    load_rows data skipped rows = (data ++ accepted rows, Ok skipped').
Proof.
  revert data skipped. induction rows as [|r rows IH]; intros data skipped Hok.
  - exists skipped. cbn. now rewrite app_nil_r.
  - apply no_row_raises_cons in Hok as [[outcome Hr] Hok].
    cbn [load_rows accepted]. rewrite Hr. destruct outcome as [c|].
    + destruct (IH (data ++ [c]) skipped Hok) as [k ->].
      exists k. now rewrite <- app_assoc.
    + apply IH. assumption.
Qed.

Lemma load_data_appends (self : CarRankingSystem) (rows : list row) :
  no_row_raises rows ->
  cars_data (fst (load_data self (Some rows)))
  = cars_data self ++ accepted rows.
Proof.
  intros Hok. unfold load_data.
  destruct (load_rows_appends (cars_data self) 0 rows Hok) as [k ->].
  destruct (cars_data self ++ accepted rows); reflexivity.
Qed.

(** The index groups the collection by brand, in the order of the
    collection. *)

Lemma organize_lookup (cars : list car) (index : gmap string (list car))
    (b : string) :
  default [] (fold_left add_to_brand cars index !! b)
  = default [] (index !! b)
      ++ List.filter (fun c => String.eqb (brand c) b) cars.
Proof.
  revert index. induction cars as [|c cars IH]; intros index.
  - cbn. now rewrite app_nil_r.
  - cbn [fold_left List.filter]. rewrite IH. unfold add_to_brand.
    destruct (String.eqb_spec (brand c) b) as [->|Hne].
    + rewrite lookup_insert_eq. cbn [from_option id].
      now rewrite <- app_assoc.
    + now rewrite lookup_insert_ne.
Qed.

(** On a new object a load leaves exactly the accepted rows, grouped by
    brand. *)

Lemma load_data_fresh (rows : list row) :
  no_row_raises rows -> accepted rows <> [] ->
  exists self,
    load_data init (Some rows) = (self, true) /\
    cars_data self = accepted rows /\
    forall b, default [] (cars_by_brand self !! b)
              = List.filter (fun c => String.eqb (brand c) b) (accepted rows).
Proof.
  intros Hok Hsome. unfold load_data.
  destruct (load_rows_appends (cars_data init) 0 rows Hok) as [k ->].
  cbn [cars_data init app].
  destruct (accepted rows) as [|c cars] eqn:Hacc; [contradiction|].
  eexists. split; [reflexivity|]. split; [reflexivity|].
  intros b. cbn [_organize_by_brand cars_by_brand cars_data].
  rewrite organize_lookup. now rewrite lookup_empty.
Qed.
End Loading.

(** C7, where the code departs from it.  [load_data] of [DSA_main.py] does
    not empty [cars_data]: a second load of the same one-row file leaves
    the record twice in the collection and in its brand group.  [load_data]
    of [code.py] empties [cars_data] but not [cars_by_brand]: after the
    second load the brand group holds the row twice. *)
Theorem load_data_again_keeps_earlier_records :
  let file := Some [camry_row] in
  let first := fst (load_data (H := Plain.builtins) init file) in
  let second := fst (load_data (H := Plain.builtins) first file) in
  accepted (H := Plain.builtins) [camry_row] = [camry] /\
  cars_data first = [camry] /\
  cars_data second = [camry; camry] /\
  cars_by_brand second !! "toyota" = Some [camry; camry] /\
  Simple.load_data (H := Plain.builtins) simple_init file
  = Ok (simple_loaded [camry_converted]) /\
  Simple.load_data (H := Plain.builtins) (simple_loaded [camry_converted]) file
  = Ok (simple_loaded [camry_converted; camry_converted]).
Proof. cbv zeta. repeat split; vm_compute; reflexivity. Qed.

(** ** Value score *)

(** Every model year of the valid range gives a positive root; the years
    are few enough to be tried one by one. *)

Lemma root_is_positive_in_range (y : Z) :
  1900 <= y <= 2025 -> root_is_positive y = true.
Proof.
  intros Hy.
  assert (Hall : forallb root_is_positive
                   (List.map (fun i => 1900 + Z.of_nat i) (List.seq 0 126))
                 = true) by (vm_compute; reflexivity).
  apply (proj1 (forallb_forall _ _) Hall).
  apply in_map_iff. exists (Z.to_nat (y - 1900)).
  split; [lia|]. apply in_seq. lia.
Qed.

Lemma float_of_int_raises (z : Z) (e : exn) :
  float_of_int z = Raise e -> e = OverflowError.
Proof.
  unfold float_of_int.
  destruct (binary_normalize prec emax z 0 false); congruence.
Qed.

(** C8.  The age of a car is at least 1 whatever its model year.  For a
    model year from 1900 to 2025 the root is taken of a float above zero
    and is itself above zero, so that [_get_value_score] never raises
    [ZeroDivisionError]; and a car of model year 2025 priced 20000 has the
    value score 20000. *)
Theorem value_score_age_floor (c : car) :
  1 <= car_age c /\
  (1900 <= year c <= 2025 ->
   exists base root,
     float_of_int (car_age c) = Ok base /\
     float_lt float_zero base = true /\
     pow_half (car_age c) = Ok root /\
     float_lt float_zero root = true /\
     _get_value_score c <> Raise ZeroDivisionError) /\
  (year c = 2025 -> price c = 20000 ->
   _get_value_score c = float_of_int 20000).
Proof.
  split; [unfold car_age; lia|]. split.
  - intros Hy. pose proof (root_is_positive_in_range (year c) Hy) as Hroot.
    unfold root_is_positive in Hroot. fold (car_age c) in Hroot.
    destruct (float_of_int (car_age c)) as [base|] eqn:Hbase; [|discriminate].
    destruct (pow_half (car_age c)) as [root|] eqn:Hpow; [|discriminate].
    apply andb_true_iff in Hroot as [Hb Hr].
    exists base, root. repeat split; trivial.
    unfold _get_value_score. rewrite Hpow. cbn [mbind result_bind].
    destruct (float_of_int (price c)) as [p|e] eqn:Hp;
      cbn [mbind result_bind].
    + unfold float_div. destruct root as [s|s| |s m e]; discriminate.
    + rewrite (float_of_int_raises _ _ Hp). discriminate.
  - intros Hy Hp. unfold _get_value_score, car_age. rewrite Hy, Hp.
    vm_compute. reflexivity.
Qed.

(** ** The claims on concrete data *)

Lemma quicksort_permutation_witness :
  exists out,
    quicksort [camry; corolla; prius] _get_price true = Some out /\
    Permutation [camry; corolla; prius] out /\
    length out = length [camry; corolla; prius].
Proof.
  apply (quicksort_permutation any_int _get_price true
           [camry; corolla; prius]).
  intros x _. exact I.
Defined.

Lemma quicksort_sorted_witness :
  exists pivot before equal after,
    quicksort [camry; corolla; prius] _get_price false
    = Some ((before ++ equal) ++ after) /\
    nth_error [camry; corolla; prius] 1 = Some pivot /\
    pivot = corolla /\
    before = [] /\ equal = [corolla; prius] /\ after = [camry] /\
    StronglySorted (in_order _get_price false) ((before ++ equal) ++ after).
Proof.
  destruct (quicksort_sorted any_int _get_price false [camry; corolla; prius])
    as (out & Hout & Hsorted & _ & Hparts).
  { intros x _. exact I. }
  cbn [length Nat.leb] in Hparts.
  destruct Hparts
    as (pivot & before & equal & after & sorted_before & sorted_after
        & Hpivot & Hbefore & Hequal & Hafter & _ & _ & Hsb & Hsa & Hsplit).
  injection Hpivot as <-. subst before equal after out.
  vm_compute in Hsb, Hsa. injection Hsb as <-. injection Hsa as <-.
  exists corolla, [], [corolla; prius], [camry].
  split; [exact Hout|]. split; [reflexivity|]. split; [reflexivity|].
  split; [reflexivity|]. split; [reflexivity|]. split; [reflexivity|].
  exact Hsorted.
Defined.

Lemma quicksort_stable_witness :
  exists out,
    quicksort [camry; corolla; prius] _get_price false = Some out /\
    List.filter (fun x => py_eq (_get_price x) 12000) out = [corolla; prius].
Proof.
  destruct (quicksort_stable any_int _get_price false [camry; corolla; prius])
    as (out & Hout & Hstable & _).
  - intros x _. exact I.
  - exists out. split; [exact Hout|]. rewrite (Hstable 12000 I). reflexivity.
Defined.

Lemma quicksort_reverse_is_descending_witness :
  exists ascending descending,
    quicksort [camry; corolla; prius] _get_year false = Some ascending /\
    quicksort [camry; corolla; prius] _get_year true = Some descending /\
    rev ascending = descending.
Proof.
  apply (quicksort_reverse_is_descending any_int _get_year
           [camry; corolla; prius]).
  - intros x _. exact I.
  - reflexivity.
Defined.

Lemma filter_cars_conjunction_witness :
  (exists stdin',
     filter_cars (H := Plain.builtins)
       {| cars_data := [camry; corolla; prius];
          cars_by_brand := {[ "toyota" := [camry; corolla; prius] ]} |}
       "toyota" ["13000"; "2015"]
     = ({| cars_data := [camry; corolla; prius];
           cars_by_brand := {[ "toyota" := [camry; corolla; prius] ]} |},
        Ok [corolla], stdin')) /\
  (exists stdin',
     filter_cars (H := Plain.builtins)
       {| cars_data := [camry; corolla; prius];
          cars_by_brand := {[ "toyota" := [camry; corolla; prius] ]} |}
       "toyota" [""; "2019"]
     = ({| cars_data := [camry; corolla; prius];
           cars_by_brand := {[ "toyota" := [camry; corolla; prius] ]} |},
        Ok [camry], stdin')) /\
  (exists stdin',
     filter_cars (H := Plain.builtins)
       {| cars_data := [camry; corolla; prius];
          cars_by_brand := {[ "toyota" := [camry; corolla; prius] ]} |}
       "toyota" [""; ""]
     = ({| cars_data := [camry; corolla; prius];
           cars_by_brand := {[ "toyota" := [camry; corolla; prius] ]} |},
        Ok [camry; corolla], stdin')).
Proof.
  split; [|split].
  - destruct (filter_cars_conjunction (H := Plain.builtins)
                {| cars_data := [camry; corolla; prius];
                   cars_by_brand := {[ "toyota" := [camry; corolla; prius] ]} |}
                "toyota" "13000" "2015" []) as [[stdin' Hrun] _].
    exists stdin'. rewrite Hrun. vm_compute. reflexivity.
  - destruct (filter_cars_conjunction (H := Plain.builtins)
                {| cars_data := [camry; corolla; prius];
                   cars_by_brand := {[ "toyota" := [camry; corolla; prius] ]} |}
                "toyota" "" "2019" []) as [[stdin' Hrun] _].
    exists stdin'. rewrite Hrun. vm_compute. reflexivity.
  - destruct (filter_cars_conjunction (H := Plain.builtins)
                {| cars_data := [camry; corolla; prius];
                   cars_by_brand := {[ "toyota" := [camry; corolla; prius] ]} |}
                "toyota" "" "" []) as [[stdin' Hrun] _].
    exists stdin'. rewrite Hrun. vm_compute. reflexivity.
Defined.

Lemma clean_row_data_invariants_witness :
  (0 <= price camry /\ 0 <= mileage camry /\ 1900 <= year camry <= 2025 /\
   brand camry = clean_brand (H := Plain.builtins) camry_row /\
   brand camry <> "" /\
   model camry = clean_model (H := Plain.builtins) camry_row /\
   model camry <> "") /\
  _clean_row_data (H := Plain.builtins) old_row = Ok None /\
  _clean_row_data (H := Plain.builtins) negative_row = Ok None.
Proof.
  split; [|split].
  - apply (proj1 (clean_row_data_invariants (H := Plain.builtins) camry_row)
             camry).
    vm_compute. reflexivity.
  - eapply (proj2 (clean_row_data_invariants (H := Plain.builtins) old_row));
      [vm_compute; reflexivity ..|].
    right. right. left. vm_compute. reflexivity.
  - eapply (proj2 (clean_row_data_invariants (H := Plain.builtins)
                     negative_row));
      [vm_compute; reflexivity ..|].
    left. vm_compute. reflexivity.
Defined.

Lemma missing_number_defaults_witness :
  _clean_row_data (H := Plain.builtins) (delete "price" camry_row)
  = Ok (Some {| price := 0; brand := "toyota"; model := "Camry";
                year := 2020; title_status := "clean vehicle";
                mileage := 30000; color := "Blue" |}) /\
  _clean_row_data (H := Plain.builtins) (delete "mileage" camry_row)
  = Ok (Some {| price := 15000; brand := "toyota"; model := "Camry";
                year := 2020; title_status := "clean vehicle";
                mileage := 0; color := "Blue" |}) /\
  _clean_row_data (H := Plain.builtins) (delete "year" camry_row) = Ok None.
Proof.
  pose proof (missing_number_defaults (H := Plain.builtins)
                (delete "price" camry_row)) as (Hprice & _ & _).
  pose proof (missing_number_defaults (H := Plain.builtins)
                (delete "mileage" camry_row)) as (_ & Hmileage & _).
  pose proof (missing_number_defaults (H := Plain.builtins)
                (delete "year" camry_row)) as (_ & _ & Hyear).
  split; [|split].
  - rewrite (Hprice eq_refl (S754_finite false 8246337208320000 (-38))
               30000 2020);
      try (vm_compute; reflexivity); try discriminate.
    vm_compute. split; discriminate.
  - rewrite (Hmileage eq_refl (S754_finite false 8246337208320000 (-39))
               15000 2020);
      try (vm_compute; reflexivity); try discriminate.
    vm_compute. split; discriminate.
  - apply Hyear; [reflexivity|].
    intros key z. unfold camry_row.
    rewrite lookup_delete. case_decide; [discriminate|].
    intros Hkey. apply elem_of_list_to_map_2 in Hkey.
    repeat (apply elem_of_cons in Hkey as [Hkey|Hkey]; [discriminate|]).
    now apply elem_of_nil in Hkey.
Defined.

Lemma single_record_statistics_witness :
  (exists line,
     brand_statistics [camry] = Ok (Some line) /\
     _show_brand_statistics
       {| cars_data := [camry]; cars_by_brand := {[ "toyota" := [camry] ]} |}
     = Ok [("toyota", line)] /\
     stat_count line = 1%nat /\
     min_price line = 15000 /\
     max_price line = 15000 /\
     (avg_price line == 15000)%Q) /\
  exists top more, display_results [camry] 10 = Ok (Listing top more None).
Proof.
  destruct (single_record_statistics camry 10) as (Hbrand & Hdisplay & _).
  split; [|exact Hdisplay]. apply Hbrand. reflexivity.
Defined.

Lemma value_score_age_floor_witness :
  1 <= car_age new_car /\
  (exists base root,
     float_of_int (car_age new_car) = Ok base /\
     float_lt float_zero base = true /\
     pow_half (car_age new_car) = Ok root /\
     float_lt float_zero root = true /\
     _get_value_score new_car <> Raise ZeroDivisionError) /\
  _get_value_score new_car = float_of_int 20000.
Proof.
  destruct (value_score_age_floor new_car) as (Hage & Hroot & Hscore).
  split; [exact Hage|]. split.
  - apply Hroot. cbn. lia.
  - apply Hscore; reflexivity.
Defined.

(** C6, as the specification words it, does not hold of [display_results]:
    for a single record no average is put on the screen. *)
Lemma display_results_single_record_no_summary :
  ~ exists top more count average,
      display_results [camry] 10
      = Ok (Listing top more (Some (count, average))).
Proof.
  intros (top & more & count & average & Hscreen).
  vm_compute in Hscreen. discriminate.
Qed.

(** The documented scenario from rows to ranking: both rows are accepted,
    the index has the two records under "toyota", both pass the filter and
    the Corolla ranks before the Camry by price. *)
Example scenario_two_rows :
  let loaded := load_data (H := Plain.builtins) init
                  (Some [camry_row; corolla_row]) in
  snd loaded = true /\
  cars_data (fst loaded) = [camry; corolla] /\
  cars_by_brand (fst loaded) !! "toyota" = Some [camry; corolla] /\
  filter_cars (H := Plain.builtins) (fst loaded) "toyota" [""; ""]
  = (fst loaded, Ok [camry; corolla], []) /\
  quicksort [camry; corolla] _get_price false = Some [corolla; camry].
Proof. cbv zeta. repeat split; vm_compute; reflexivity. Qed.

(** The other documented scenarios: a year below the range and a negative
    price are rejected by [_clean_row_data].  The loop of [code.py] tests
    no range: it keeps the row with the negative price. *)
Example scenario_rejected_rows :
  _clean_row_data (H := Plain.builtins) old_row = Ok None /\
  _clean_row_data (H := Plain.builtins) negative_row = Ok None /\
  Simple.convert_row (H := Plain.builtins) negative_row
  = Ok (<["mileage" := PInt 30000]> (<["price" := PInt (-500)]> camry_row)).
Proof. repeat split; vm_compute; reflexivity. Qed.

(** * Part III: further properties of the code *)

(** ** Brand index *)

Section BrandIndex.
Context `{Builtins}.

Lemma organize_lookup_exact (cars : list car) (index : gmap string (list car))
    (b : string) :
  fold_left add_to_brand cars index !! b
  = match List.filter (fun c => String.eqb (brand c) b) cars with
    | [] => index !! b
    | group => Some (default [] (index !! b) ++ group)
    end.
Proof.
  revert index. induction cars as [|c cars IH]; intros index; [reflexivity|].
  cbn [fold_left List.filter]. rewrite IH. unfold add_to_brand.
  destruct (String.eqb_spec (brand c) b) as [->|Hne].
  - rewrite lookup_insert_eq. cbn [from_option id].
    destruct (List.filter _ cars) as [|c' group]; [reflexivity|].
    now rewrite <- app_assoc.
  - now rewrite lookup_insert_ne.
Qed.

(** X1.  After [_organize_by_brand] the entry of a brand is the list of the
    records of the collection that carry this brand, in the order of the
    collection, and a brand that no record carries has no entry.  Hence no
    group is empty, every record sits in the group of its own brand, every
    member of a group carries the brand of the group, and the collection
    itself is untouched. *)
Theorem organize_by_brand_groups (self : CarRankingSystem) :
  let index := cars_by_brand (_organize_by_brand self) in
  cars_data (_organize_by_brand self) = cars_data self /\
  (forall b,
     index !! b
     = match List.filter (fun c => String.eqb (brand c) b) (cars_data self)
       with
       | [] => None
       | group => Some group
       end) /\
  (forall b group, index !! b = Some group ->
     group <> [] /\ forall c, In c group -> In c (cars_data self) /\ brand c = b) /\
  (forall c, In c (cars_data self) ->
     exists group, index !! brand c = Some group /\ In c group).
Proof.
  cbv zeta. cbn [_organize_by_brand cars_by_brand cars_data].
  assert (Hexact : forall b,
            fold_left add_to_brand (cars_data self) ∅ !! b
            = match List.filter (fun c => String.eqb (brand c) b)
                      (cars_data self) with
              | [] => None
              | group => Some group
              end).
  { intros b. rewrite organize_lookup_exact, lookup_empty.
    now destruct (List.filter _ (cars_data self)). }
  split; [reflexivity|]. split; [exact Hexact|]. split.
  - intros b group. rewrite Hexact.
    destruct (List.filter _ (cars_data self)) as [|c0 rest] eqn:Hgroup;
      [discriminate|].
    intros [= <-]. split; [discriminate|].
    intros c Hc. rewrite <- Hgroup in Hc. apply filter_In in Hc as [Hc Hb].
    split; [assumption|]. now apply String.eqb_eq.
  - intros c Hc. rewrite Hexact.
    assert (Hin : In c (List.filter (fun c' => String.eqb (brand c') (brand c))
                          (cars_data self))).
    { apply filter_In. split; [assumption|]. apply String.eqb_refl. }
    destruct (List.filter _ (cars_data self)) as [|c0 rest]; [destruct Hin|].
    eauto.
Qed.
End BrandIndex.

(** ** Loading *)

Section LoadingOutcome.
Context `{Builtins}.

(** [_clean_row_data] lets no [ValueError] and no [TypeError] out. *)

Lemma clean_row_data_catches (r : row) :
  _clean_row_data r <> Raise ValueError /\
  _clean_row_data r <> Raise TypeError.
Proof.
  unfold _clean_row_data.
  destruct (clean_row_body r) as [[c|]|[]]; split; discriminate.
Qed.

(** X2.  When no row makes the normalizer raise, [load_data] appends the
    accepted rows to the collection it finds; it returns [True] exactly when
    the collection is then not empty, in which case the index groups the
    whole collection by brand, and otherwise leaves the index as it was.  A
    missing file changes nothing and gives [False]. *)
Theorem load_data_outcome (self : CarRankingSystem) (rows : list row) :
  no_row_raises rows ->
  let after := fst (load_data self (Some rows)) in
  let ok := snd (load_data self (Some rows)) in
  cars_data after = cars_data self ++ accepted rows /\
  (ok = true <-> cars_data after <> []) /\
  (ok = true ->
   forall b, default [] (cars_by_brand after !! b)
             = List.filter (fun c => String.eqb (brand c) b) (cars_data after)) /\
  (ok = false -> cars_by_brand after = cars_by_brand self) /\
  load_data self None = (self, false).
Proof.
  intros Hok. cbv zeta. unfold load_data.
  destruct (load_rows_appends (cars_data self) 0 rows Hok) as [k ->].
  destruct (cars_data self ++ accepted rows) as [|c cars] eqn:Hdata;
    cbn [fst snd cars_data cars_by_brand _organize_by_brand].
  - repeat split; try discriminate; try reflexivity. intros []. reflexivity.
  - repeat split; try discriminate; try reflexivity.
    intros _ b. rewrite organize_lookup. now rewrite lookup_empty.
Qed.

Lemma load_rows_aborts (data : list car) (skipped : nat)
    (good : list row) (bad : row) (rest : list row) (e : exn) :
  no_row_raises good ->
  _clean_row_data bad = Raise e ->
  load_rows data skipped (good ++ bad :: rest)
  = (data ++ accepted good, Raise e).
Proof.
  intros Hgood Hbad. revert data skipped.
  induction good as [|r good IH]; intros data skipped.
  - cbn [app load_rows accepted]. rewrite Hbad, app_nil_r.
    destruct (clean_row_data_catches bad) as [Hv _].
    destruct e; try reflexivity. congruence.
  - apply no_row_raises_cons in Hgood as [[outcome Hr] Hgood].
    cbn [app load_rows accepted]. rewrite Hr. destruct outcome as [c|].
    + rewrite (IH Hgood). now rewrite <- app_assoc.
    + apply IH. assumption.
Qed.

(** X3.  A row on which the normalizer raises ends the load at once:
    [load_data] returns [False], the rows accepted before it stay appended
    to the collection, the rows after it are not read, and the index is not
    rebuilt. *)
Theorem load_data_aborts (self : CarRankingSystem)
    (good : list row) (bad : row) (rest : list row) (e : exn) :
  no_row_raises good ->
  _clean_row_data bad = Raise e ->
  load_data self (Some (good ++ bad :: rest))
  = ({| cars_data := cars_data self ++ accepted good;
        cars_by_brand := cars_by_brand self |}, false).
Proof.
  intros Hgood Hbad. unfold load_data.
  rewrite (load_rows_aborts _ _ good bad rest e Hgood Hbad). reflexivity.
Qed.
End LoadingOutcome.

(** ** Record normalizer: numbers that are not finite, fields that are
    missing *)

Section NormalizerEdges.
Context `{Builtins}.

Lemma py_int_csv (r : row) (key : string) :
  csv_row r ->
  (exists z, py_int (get r key (PInt 0)) = Ok z) \/
  py_int (get r key (PInt 0)) = Raise ValueError \/
  py_int (get r key (PInt 0)) = Raise TypeError.
Proof.
  intros Hcsv. unfold get.
  destruct (r !! key) as [[s|z|]|] eqn:Hkey; cbn.
  - destruct (int_of_string s); eauto.
  - now apply Hcsv in Hkey.
  - auto.
  - left. eexists. reflexivity.
Qed.

Lemma py_float_raises (v : pyval) (e : exn) :
  py_float v = Raise e ->
  e = ValueError \/ e = TypeError \/ e = OverflowError.
Proof.
  destruct v as [s|z|]; cbn.
  - destruct (float_of_string s); [discriminate|]. intros [= <-]. auto.
  - intros He. apply float_of_int_raises in He. auto.
  - intros [= <-]. auto.
Qed.

Lemma py_int_raises (v : pyval) (e : exn) :
  py_int v = Raise e -> e = ValueError \/ e = TypeError.
Proof.
  destruct v as [s|z|]; cbn.
  - destruct (int_of_string s); [discriminate|]. intros [= <-]. auto.
  - discriminate.
  - intros [= <-]. auto.
Qed.

Lemma int_of_float_raises (f : float) (e : exn) :
  int_of_float f = Raise e ->
  (e = ValueError /\ f = S754_nan) \/
  (e = OverflowError /\ exists s, f = S754_infinity s).
Proof.
  destruct f as [s|s| |s m x]; cbn; try discriminate; intros [= <-]; eauto.
Qed.

(** X4.  The only exception that [_clean_row_data] lets out is
    [OverflowError].  On a row read from a file it comes from [int] applied
    to a price or a mileage that is positive infinity, the row having passed
    every test; and a row that passes the tests with such a price does
    raise it. *)
Theorem clean_row_data_raises_overflow (r : row) :
  (forall e, _clean_row_data r = Raise e -> e = OverflowError) /\
  (forall e, csv_row r -> _clean_row_data r = Raise e ->
     exists p m,
       py_float (get r "price" (PInt 0)) = Ok p /\
       py_float (get r "mileage" (PInt 0)) = Ok m /\
       (p = S754_infinity false \/ m = S754_infinity false)) /\
  (forall m y,
     py_float (get r "price" (PInt 0)) = Ok (S754_infinity false) ->
     py_float (get r "mileage" (PInt 0)) = Ok m ->
     float_lt m float_zero = false ->
     py_int (get r "year" (PInt 0)) = Ok y ->
     1900 <= y <= 2025 ->
     clean_brand r <> "" -> clean_model r <> "" ->
     _clean_row_data r = Raise OverflowError).
Proof.
  assert (Hbody : forall e, clean_row_body r = Raise e ->
            e = ValueError \/ e = TypeError \/
            (e = OverflowError /\
             ((exists z, r !! "price" = Some (PInt z)) \/
              (exists z, r !! "mileage" = Some (PInt z)) \/
              exists p m,
                py_float (get r "price" (PInt 0)) = Ok p /\
                py_float (get r "mileage" (PInt 0)) = Ok m /\
                (p = S754_infinity false \/ m = S754_infinity false)))).
  { intros e. unfold clean_row_body.
    fold (clean_brand r) (clean_model r) (clean_color r)
      (clean_title_status r).
    destruct (py_float (get r "price" (PInt 0))) as [p|e1] eqn:Hp.
    2:{ cbn [mbind result_bind]. intros [= <-].
        destruct (py_float_raises _ _ Hp) as [-> | [-> | ->]]; auto.
        right. right. split; [reflexivity|]. left.
        unfold get in Hp. destruct (r !! "price") as [[s|z|]|]; cbn in Hp.
        - destruct (float_of_string s); discriminate.
        - eauto.
        - discriminate.
        - discriminate. }
    destruct (py_float (get r "mileage" (PInt 0))) as [m|e1] eqn:Hm.
    2:{ cbn [mbind result_bind]. intros [= <-].
        destruct (py_float_raises _ _ Hm) as [-> | [-> | ->]]; auto.
        right. right. split; [reflexivity|]. right. left.
        unfold get in Hm. destruct (r !! "mileage") as [[s|z|]|]; cbn in Hm.
        - destruct (float_of_string s); discriminate.
        - eauto.
        - discriminate.
        - discriminate. }
    destruct (py_int (get r "year" (PInt 0))) as [y|e1] eqn:Hy.
    2:{ cbn [mbind result_bind]. intros [= <-].
        destruct (py_int_raises _ _ Hy) as [-> | ->]; auto. }
    cbn [mbind result_bind].
    destruct (float_lt p float_zero) eqn:Hp0; [discriminate|].
    destruct (float_lt m float_zero) eqn:Hm0; [discriminate|].
    destruct (_ || _ || _ || _); [discriminate|].
    destruct (_ || _); [discriminate|].
    destruct (int_of_float p) as [ip|e1] eqn:Hip.
    2:{ cbn [mbind result_bind]. intros [= <-].
        destruct (int_of_float_raises _ _ Hip) as [[-> _]|[-> [s ->]]]; auto.
        right. right. split; [reflexivity|]. right. right.
        exists (S754_infinity s), m. repeat split. left.
        destruct s; [discriminate|reflexivity]. }
    destruct (int_of_float m) as [im|e1] eqn:Him.
    2:{ cbn [mbind result_bind]. intros [= <-].
        destruct (int_of_float_raises _ _ Him) as [[-> _]|[-> [s ->]]]; auto.
        right. right. split; [reflexivity|]. right. right.
        exists p, (S754_infinity s). repeat split. right.
        destruct s; [discriminate|reflexivity]. }
    discriminate. }
  assert (Hout : forall e, _clean_row_data r = Raise e ->
            clean_row_body r = Raise e /\ e = OverflowError).
  { intros e. unfold _clean_row_data.
    destruct (clean_row_body r) as [o|e'] eqn:Hb; [discriminate|].
    destruct (Hbody e' eq_refl) as [-> | [-> | [-> _]]]; try discriminate.
    intros [= <-]. auto. }
  split; [|split].
  - intros e He. now apply Hout in He.
  - intros e Hcsv He. apply Hout in He as [He ->].
    destruct (Hbody _ He) as [?|[?|[_ [[z Hz]|[[z Hz]|Hinf]]]]];
      try discriminate; try assumption.
    + now apply Hcsv in Hz.
    + now apply Hcsv in Hz.
  - intros m y Hp Hm Hm0 Hy Hrange Hb Hmo.
    unfold _clean_row_data, clean_row_body.
    fold (clean_brand r) (clean_model r) (clean_color r)
      (clean_title_status r).
    rewrite Hp, Hm, Hy. cbn [mbind result_bind].
    rewrite Hm0. change (float_lt (S754_infinity false) float_zero) with false.
    destruct (Z.ltb_spec y 1900); [lia|].
    destruct (Z.gtb_spec y 2025); [lia|].
    cbn [orb].
    destruct (String.eqb_spec (clean_brand r) ""); [contradiction|].
    destruct (String.eqb_spec (clean_model r) ""); [contradiction|].
    reflexivity.
Qed.

(** X5.  A row read from a file whose price is NaN or negative infinity
    is rejected with [None], whatever its other fields; so is one whose
    mileage is NaN or negative infinity, unless its price is positive
    infinity. *)
Theorem clean_row_data_rejects_nan (r : row) (p : float) :
  csv_row r ->
  py_float (get r "price" (PInt 0)) = Ok p ->
  (p = S754_nan \/ p = S754_infinity true ->
   _clean_row_data r = Ok None) /\
  (forall m,
     p <> S754_infinity false ->
     py_float (get r "mileage" (PInt 0)) = Ok m ->
     m = S754_nan \/ m = S754_infinity true ->
     _clean_row_data r = Ok None).
Proof.
  intros Hcsv Hp.
  assert (Hgen : forall m,
            py_float (get r "mileage" (PInt 0)) = Ok m ->
            int_of_float p = Raise ValueError \/
            float_lt p float_zero = true \/
            ((exists ip, int_of_float p = Ok ip) /\
             (int_of_float m = Raise ValueError \/
              float_lt m float_zero = true)) ->
            _clean_row_data r = Ok None).
  { intros m Hm Hcase.
    unfold _clean_row_data, clean_row_body. rewrite Hp, Hm.
    destruct (py_int_csv r "year" Hcsv) as [[y ->]|[-> | ->]];
      try reflexivity.
    cbn [mbind result_bind].
    destruct (float_lt p float_zero) eqn:Hp0; [reflexivity|].
    destruct (float_lt m float_zero) eqn:Hm0; [reflexivity|].
    destruct (_ || _ || _ || _); [reflexivity|].
    destruct (_ || _); [reflexivity|].
    destruct Hcase as [Hip|[?|[[ip Hip] [Him|?]]]]; try discriminate.
    - now rewrite Hip.
    - rewrite Hip. cbn [mbind result_bind]. now rewrite Him. }
  split.
  - intros Hbad.
    destruct (py_float_csv r "mileage" Hcsv) as [[m Hm]|Hm].
    + apply (Hgen m Hm). destruct Hbad as [-> | ->]; auto.
    + unfold _clean_row_data, clean_row_body. rewrite Hp.
      destruct Hm as [-> | ->]; reflexivity.
  - intros m Hpinf Hm Hbad. apply (Hgen m Hm).
    destruct p as [s|[]| |s mp ep]; try congruence.
    + right. right. split; [eexists; reflexivity|].
      destruct Hbad as [-> | ->]; auto.
    + right. left. reflexivity.
    + left. reflexivity.
    + destruct s.
      * right. left. reflexivity.
      * right. right. split; [eexists; reflexivity|].
        destruct Hbad as [-> | ->]; auto.
Qed.

(** X6.  Provided trimming and lower-casing leave the empty text empty, a
    row read from a file that lacks the [brand] or the [model] column is
    rejected with [None]; an accepted row that lacks the [color] column gets
    the trimmed text [unknown] as its colour. *)
Theorem clean_row_data_missing_text (r : row) :
  str_strip "" = "" -> str_lower "" = "" ->
  (csv_row r -> r !! "brand" = None \/ r !! "model" = None ->
   _clean_row_data r = Ok None) /\
  (forall c, r !! "color" = None -> _clean_row_data r = Ok (Some c) ->
     color c = str_strip "unknown").
Proof.
  intros Hstrip Hlower. split.
  - intros Hcsv Hmiss.
    assert (Hempty : clean_brand r = "" \/ clean_model r = "").
    { destruct Hmiss as [Hb|Hm]; [left|right].
      - unfold clean_brand. rewrite (get_missing r "brand") by assumption.
        cbn [py_str]. now rewrite Hstrip, Hlower.
      - unfold clean_model. rewrite (get_missing r "model") by assumption.
        cbn [py_str]. assumption. }
    destruct (py_float_csv r "price" Hcsv) as [[p Hp]|Hp];
      [|unfold _clean_row_data, clean_row_body;
        destruct Hp as [-> | ->]; reflexivity].
    destruct (py_float_csv r "mileage" Hcsv) as [[m Hm]|Hm];
      [|unfold _clean_row_data, clean_row_body; rewrite Hp;
        destruct Hm as [-> | ->]; reflexivity].
    destruct (py_int_csv r "year" Hcsv) as [[y Hy]|Hy];
      [|unfold _clean_row_data, clean_row_body; rewrite Hp, Hm;
        destruct Hy as [-> | ->]; reflexivity].
    apply (clean_row_data_rejects r p m y); trivial. tauto.
  - intros c Hmiss Hc.
    apply clean_row_data_accepts, clean_row_body_accepts in Hc.
    destruct Hc as (p & m & y & ip & im & _ & _ & _ & _ & _ & _ & _ & _
                    & _ & _ & ->).
    cbn [color]. unfold clean_color.
    now rewrite (get_missing r "color") by assumption.
Qed.
End NormalizerEdges.

(** ** Truncation and the price ceiling *)

(** X7.  For a float [f] that is not below zero, an integer is at most [f]
    exactly when it is at most [int(f)]: the price ceiling typed by the user
    acts as its integer part, and the price kept by the normalizer is the
    largest integer not above the number read. *)
Theorem int_le_float_truncated (f : float) (t : Z) :
  float_lt f float_zero = false ->
  int_of_float f = Ok t ->
  forall z, int_le_float z f = (z <=? t).
Proof.
  destruct f as [s|s| |[] m e]; cbn; try discriminate.
  - intros _ [= <-] z. reflexivity.
  - intros _ [= <-] z. destruct (Z.leb_spec 0 e) as [He|He].
    + rewrite Z.shiftl_mul_pow2 by assumption. reflexivity.
    + rewrite Z.shiftl_div_pow2 by lia.
      assert (Hk : 0 < 2 ^ (- e)) by (apply Z.pow_pos_nonneg; lia).
      pose proof (Z.div_mod (Z.pos m) (2 ^ (- e))) as Hdm.
      pose proof (Z.mod_pos_bound (Z.pos m) (2 ^ (- e)) Hk) as Hmod.
      apply eq_true_iff_eq. rewrite !Z.leb_le. split; intros Hle; nia.
Qed.

(** ** Filter engine on any input *)

Section FilterAnyInput.
Context `{Builtins}.

Lemma filter_clean (f : car -> bool) (cars : list car) :
  (forall c, In c cars -> is_clean c = true) ->
  forall c, In c (List.filter f cars) -> is_clean c = true.
Proof. intros Hall c Hc. apply Hall. now apply filter_In in Hc. Qed.

Lemma apply_price_filter_sublist (answer : string) (cars : list car) :
  sublist (apply_price_filter answer cars) cars.
Proof.
  unfold apply_price_filter. destruct (String.eqb answer ""); [reflexivity|].
  destruct (float_of_string answer); [apply filter_sublist | reflexivity].
Qed.

Lemma apply_year_filter_sublist (answer : string) (cars : list car) :
  sublist (apply_year_filter answer cars) cars.
Proof.
  unfold apply_year_filter. destruct (String.eqb answer ""); [reflexivity|].
  destruct (int_of_string answer); [apply filter_sublist | reflexivity].
Qed.

Lemma apply_price_filter_keeps (answer : string) (base cars : list car) :
  (forall c, In c cars -> In c (apply_price_filter answer base)) ->
  apply_price_filter answer cars = cars.
Proof.
  unfold apply_price_filter. destruct (String.eqb answer ""); [reflexivity|].
  destruct (float_of_string answer) as [m|]; [|reflexivity].
  intros Hall. apply filter_all. intros c Hc.
  now apply Hall, filter_In in Hc.
Qed.

Lemma apply_year_filter_keeps (answer : string) (base cars : list car) :
  (forall c, In c cars -> In c (apply_year_filter answer base)) ->
  apply_year_filter answer cars = cars.
Proof.
  unfold apply_year_filter. destruct (String.eqb answer ""); [reflexivity|].
  destruct (int_of_string answer) as [m|]; [|reflexivity].
  intros Hall. apply filter_all. intros c Hc.
  now apply Hall, filter_In in Hc.
Qed.

Lemma sublist_included (l k : list car) :
  sublist l k -> forall c, In c l -> In c k.
Proof.
  intros Hsub c Hc. apply list_elem_of_In.
  eapply elem_of_sublist; [|exact Hsub]. now apply list_elem_of_In.
Qed.

(** X18.  Filtering what has been filtered changes nothing: when
    [filter_cars] has returned a list for two answers and that list is made
    the group of the brand, [filter_cars] with the same two answers returns
    that list again. *)
Theorem filter_cars_idempotent (self : CarRankingSystem) (brand : string)
    (line1 line2 : string) (rest left_over : list string)
    (cars : list car) :
  filter_cars self brand (line1 :: line2 :: rest)
  = (self, Ok cars, left_over) ->
  exists left_over',
    filter_cars (with_group self brand cars) brand (line1 :: line2 :: rest)
    = (with_group self brand cars, Ok cars, left_over').
Proof.
  intros Hfirst.
  assert (Hcars : List.filter is_clean cars = cars /\
                  apply_price_filter (str_strip line1) cars = cars /\
                  apply_year_filter (str_strip line2) cars = cars).
  { assert (Hnil : List.filter is_clean [] = [] /\
                    apply_price_filter (str_strip line1) [] = [] /\
                    apply_year_filter (str_strip line2) [] = []).
    { split; [reflexivity|split].
      - apply (apply_price_filter_keeps _ []). intros c [].
      - apply (apply_year_filter_keeps _ []). intros c []. }
    revert Hfirst. unfold filter_cars.
    destruct (List.filter is_clean (default [] (cars_by_brand self !! brand)))
      as [|c0 clean] eqn:Hclean.
    { intros [= <- _]. exact Hnil. }
    cbn [input].
    pose proof (apply_price_filter_sublist (str_strip line1) (c0 :: clean))
      as Hsub1.
    destruct (apply_price_filter (str_strip line1) (c0 :: clean))
      as [|c1 cheap] eqn:Hcheap.
    { intros [= <- _]. exact Hnil. }
    intros [= <- _].
    pose proof (apply_year_filter_sublist (str_strip line2) (c1 :: cheap))
      as Hsub2.
    split; [|split].
    - apply filter_all. intros c Hc.
      apply (sublist_included _ _ Hsub2), (sublist_included _ _ Hsub1) in Hc.
      rewrite <- Hclean in Hc. now apply filter_In in Hc.
    - apply (apply_price_filter_keeps _ (c0 :: clean)). intros c Hc.
      rewrite Hcheap. now apply (sublist_included _ _ Hsub2).
    - now apply (apply_year_filter_keeps _ (c1 :: cheap)). }
  destruct Hcars as (Hclean & Hprice & Hyear).
  unfold filter_cars. cbn [with_group cars_by_brand].
  rewrite lookup_insert_eq. cbn [from_option id]. rewrite Hclean.
  destruct cars as [|c cars']; [eexists; reflexivity|].
  cbn [input]. rewrite Hprice. rewrite Hyear. eexists. reflexivity.
Qed.
End FilterAnyInput.

(** ** Ranking engine: sorted input, repeated sorting, negated keys *)

Section QuicksortSorted.
Context {A K : Type} `{PyCmp K} (comparable : K -> Prop).
Context `{!PyCmpLaws comparable}.
Variable key_func : A -> K.

Lemma in_order_not_before reverse (x y : A) :
  comparable (key_func x) -> comparable (key_func y) ->
  in_order key_func reverse x y <->
  sorts_before reverse (key_func y) (key_func x) = false.
Proof.
  intros Hx Hy. unfold in_order, sorts_before. destruct reverse.
  - now rewrite py_gt_lt by assumption.
  - reflexivity.
Qed.

Lemma StronglySorted_filter (R : A -> A -> Prop) (f : A -> bool)
    (l : list A) :
  StronglySorted R l -> StronglySorted R (List.filter f l).
Proof.
  induction 1 as [|x l Hl IH Hx]; [constructor|].
  cbn [List.filter]. destruct (f x); [|assumption].
  constructor; [assumption|].
  apply List.Forall_forall. intros y Hy. apply filter_In in Hy as [Hy _].
  now apply (proj1 (List.Forall_forall _ _) Hx).
Qed.

(** On a list that is already in order the three groups are three
    consecutive stretches of the list. *)

Lemma sorted_partition reverse pv (arr : list A) :
  comparable pv -> keys_in comparable key_func arr ->
  StronglySorted (in_order key_func reverse) arr ->
  (left_of key_func reverse pv arr ++ middle_of key_func pv arr)
    ++ right_of key_func reverse pv arr = arr.
Proof.
  intros Hpv Hkeys Hsorted.
  rewrite left_of_filter, right_of_filter. unfold middle_of.
  induction Hsorted as [|x rest Hrest IH Hx]; [reflexivity|].
  apply (keys_in_cons comparable) in Hkeys as [Cx Hkeys].
  specialize (IH Hkeys).
  assert (Hnb : forall y, In y rest ->
            sorts_before reverse (key_func y) (key_func x) = false).
  { intros y Hy. apply in_order_not_before; auto.
    now apply (proj1 (List.Forall_forall _ _) Hx). }
  cbn [List.filter].
  destruct (sorts_trichotomy comparable reverse (key_func x) pv Cx Hpv)
    as [(Eb & Ee & Ea)|[(Eb & Ee & Ea)|(Eb & Ee & Ea)]];
    rewrite Eb, Ee, Ea.
  - cbn [app]. now rewrite IH.
  - assert (Hnone : List.filter
                      (fun y => sorts_before reverse (key_func y) pv) rest
                    = []).
    { apply filter_none. intros y Hy.
      rewrite <- (sorts_before_eq_r comparable reverse (key_func x) pv)
        by auto.
      now apply Hnb. }
    rewrite Hnone in *. cbn [app] in *. now rewrite IH.
  - assert (Hafter : forall y, In y rest ->
              sorts_before reverse pv (key_func y) = true).
    { intros y Hy.
      rewrite (sorts_after_swap comparable) in Ea by assumption.
      destruct (sorts_trichotomy comparable reverse (key_func x) (key_func y))
        as [(Hb & _)|[(_ & He & _)|(_ & _ & Ha)]]; auto.
      - apply (sorts_before_trans comparable reverse pv (key_func x));
          auto.
      - rewrite <- (sorts_before_eq_r comparable reverse (key_func x))
          by auto.
        assumption.
      - rewrite (sorts_after_swap comparable) in Ha by auto.
        rewrite (Hnb y Hy) in Ha. discriminate. }
    rewrite (filter_none (fun y => sorts_before reverse (key_func y) pv)).
    2:{ intros y Hy.
        destruct (sorts_trichotomy comparable reverse (key_func y) pv)
          as [(_ & _ & Ha')|[(? & _)|(? & _)]]; auto.
        rewrite (sorts_after_swap comparable) in Ha' by auto.
        rewrite (Hafter y Hy) in Ha'. discriminate. }
    rewrite (filter_none (fun y => py_eq (key_func y) pv)).
    2:{ intros y Hy.
        destruct (sorts_trichotomy comparable reverse (key_func y) pv)
          as [(_ & ? & _)|[(_ & _ & Ha')|(_ & ? & _)]]; auto.
        rewrite (sorts_after_swap comparable) in Ha' by auto.
        rewrite (Hafter y Hy) in Ha'. discriminate. }
    rewrite (filter_all (fun y => sorts_after reverse (key_func y) pv)).
    2:{ intros y Hy. rewrite (sorts_after_swap comparable) by auto.
        now apply Hafter. }
    reflexivity.
Qed.

Lemma quicksort_of_sorted reverse (arr : list A) :
  keys_in comparable key_func arr ->
  exists out,
    quicksort arr key_func reverse = Some out /\
    (StronglySorted (in_order key_func reverse) arr -> out = arr).
Proof.
  apply (quicksort_ind comparable key_func reverse)
    with (P := fun arr out =>
                 StronglySorted (in_order key_func reverse) arr -> out = arr).
  - reflexivity.
  - intros l pivot sl sr Hkeys Hlen Hpivot Pl Pr Hsorted.
    rewrite Pl, Pr.
    + apply sorted_partition; trivial.
      apply Hkeys. eapply nth_error_In. eassumption.
    + rewrite right_of_filter. now apply StronglySorted_filter.
    + rewrite left_of_filter. now apply StronglySorted_filter.
Qed.

(** X9.  [quicksort] returns a list that is already in the requested
    order unchanged; in particular sorting a second time, by the same key
    and in the same direction, changes nothing. *)
Theorem quicksort_idempotent (reverse : bool) (arr : list A) :
  keys_in comparable key_func arr ->
  (StronglySorted (in_order key_func reverse) arr ->
   quicksort arr key_func reverse = Some arr) /\
  (forall out, quicksort arr key_func reverse = Some out ->
     quicksort out key_func reverse = Some out).
Proof.
  intros Hkeys. split.
  - intros Hsorted.
    destruct (quicksort_of_sorted reverse arr Hkeys) as (out & Hout & Hfix).
    now rewrite Hout, (Hfix Hsorted).
  - intros out Hout.
    destruct (quicksort_perm_sorted comparable key_func reverse arr Hkeys)
      as (out' & Hout' & Hperm & Hsorted).
    assert (out' = out) as -> by congruence.
    assert (Hkeys' : keys_in comparable key_func out).
    { intros x Hx. apply Hkeys.
      eapply Permutation_in; [symmetry; exact Hperm | exact Hx]. }
    destruct (quicksort_of_sorted reverse out Hkeys') as (o & Ho & Hfix).
    now rewrite Ho, (Hfix Hsorted).
Qed.
End QuicksortSorted.

Lemma quicksort_rec_negated {A : Type} (key_func : A -> Z) (depth : nat)
    (arr : list A) :
  quicksort_rec depth arr (fun x => - key_func x) false
  = quicksort_rec depth arr key_func true.
Proof.
  revert arr. induction depth as [|depth IH]; intros arr; [reflexivity|].
  cbn [quicksort_rec].
  destruct (length arr <=? 1)%nat; [reflexivity|].
  destruct (nth_error arr (length arr / 2)) as [pivot|]; [|reflexivity].
  cbv zeta. unfold left_of, right_of, middle_of. cbn [py_lt py_gt py_eq Z_PyCmp].
  rewrite (List.filter_ext (fun x => - key_func x <? - key_func pivot)
             (fun x => key_func x >? key_func pivot))
    by (intros x; rewrite Z.gtb_ltb;
        destruct (Z.ltb_spec (- key_func x) (- key_func pivot)),
                 (Z.ltb_spec (key_func pivot) (key_func x)); lia).
  rewrite (List.filter_ext (fun x => - key_func x >? - key_func pivot)
             (fun x => key_func x <? key_func pivot))
    by (intros x; rewrite Z.gtb_ltb;
        destruct (Z.ltb_spec (- key_func pivot) (- key_func x)),
                 (Z.ltb_spec (key_func x) (key_func pivot)); lia).
  rewrite (List.filter_ext (fun x => - key_func x =? - key_func pivot)
             (fun x => key_func x =? key_func pivot))
    by (intros x;
        destruct (Z.eqb_spec (- key_func x) (- key_func pivot)),
                 (Z.eqb_spec (key_func x) (key_func pivot)); lia).
  rewrite !IH. reflexivity.
Qed.

(** X10.  For an integer key, sorting upwards by the negated key, which is
    how [code.py] ranks the newest year first, gives the very list that
    [quicksort] of [DSA_main.py] gives with [reverse=True]. *)
Theorem quicksort_negated_key {A : Type} (key_func : A -> Z) (arr : list A) :
  quicksort arr (fun x => - key_func x) false = quicksort arr key_func true /\
  Simple.quicksort arr (fun x => - key_func x) = quicksort arr key_func true.
Proof.
  split.
  - apply quicksort_rec_negated.
  - rewrite simple_quicksort. apply quicksort_rec_negated.
Qed.

(** ** Value score *)

Lemma binary_round_aux_sign_false (m e : Z) (l : location) :
  0 <= m ->
  match binary_round_aux prec emax false m e l with
  | S754_zero false | S754_finite false _ _ | S754_infinity false => True
  | _ => False
  end.
Proof.
  intros Hm. pose proof (binary_round_aux_sign false m e l) as Hs.
  pose proof (binary_round_aux_not_nan false m e l Hm) as Hn.
  destruct (binary_round_aux prec emax false m e l) as [[]|[]| |[] ? ?];
    try discriminate; try exact I. now apply Hn.
Qed.

(** X11.  For a car whose price is not negative, a value score that is
    returned is a number that is not below zero: never NaN, never
    negative. *)
Theorem value_score_not_negative (c : car) (score : float) :
  0 <= price c ->
  _get_value_score c = Ok score ->
  not_nan score /\ float_lt score float_zero = false.
Proof.
  intros Hprice Hscore. split; [eapply value_score_not_nan; eassumption|].
  pose proof (value_score_not_nan c score Hscore) as Hnan.
  revert Hscore. unfold _get_value_score, pow_half.
  destruct (float_of_int (car_age c)) as [base|] eqn:Hbase; [|discriminate].
  cbn [mbind result_bind].
  destruct (float_of_int (price c)) as [p|] eqn:Hp; [|discriminate].
  cbn [mbind result_bind].
  assert (Hage : 0 <= car_age c) by (unfold car_age; lia).
  pose proof (float_of_int_sign _ _ Hage Hbase) as Sbase.
  pose proof (float_of_int_sign _ _ Hprice Hp) as Sp.
  assert (Sroot : match SFsqrt prec emax base with
                  | S754_zero false | S754_finite false _ _
                  | S754_infinity false => True
                  | _ => False
                  end).
  { destruct base as [[]|[]| |[] mb eb]; try destruct Sbase; cbn [SFsqrt];
      try exact I.
    destruct (SFsqrt_core_binary prec emax (Z.pos mb) eb)
      as [[mz ez] lz] eqn:Hcore.
    apply binary_round_aux_sign_false.
    unfold SFsqrt_core_binary in Hcore.
    destruct (Z.sqrtrem _) as [q r] eqn:Hsq. injection Hcore as <- _ _.
    match type of Hsq with
    | Z.sqrtrem ?a = _ => pose proof (Z.sqrtrem_sqrt a) as Hs
    end.
    rewrite Hsq in Hs. cbn [fst] in Hs. rewrite Hs. apply Z.sqrt_nonneg. }
  unfold float_div.
  destruct (SFsqrt prec emax base) as [[]|[]| |[] mr er];
    try destruct Sroot; try discriminate;
    destruct p as [[]|[]| |[] mp ep]; try destruct Sp;
    intros [= <-]; try reflexivity.
  cbn [SFdiv] in *.
  destruct (SFdiv_core_binary prec emax (Z.pos mp) ep (Z.pos mr) er)
    as [[mz ez] lz].
  pose proof (binary_round_aux_sign false mz ez lz) as Hs.
  cbn [xorb] in *.
  destruct (binary_round_aux prec emax false mz ez lz) as [[]|[]| |[] ? ?];
    try discriminate; reflexivity.
Qed.

(** ** Summary statistics: bounds *)

Lemma fold_min_spec (l : list Z) (x : Z) :
  In (fold_left Z.min l x) (x :: l) /\
  forall y, In y (x :: l) -> fold_left Z.min l x <= y.
Proof.
  revert x. induction l as [|a l IH]; intros x; cbn [fold_left].
  - split; [now left|]. intros y [<-|[]]. lia.
  - destruct (IH (Z.min x a)) as [Hin Hle]. split.
    + destruct Hin as [Heq|Hin]; [|now right; right].
      rewrite <- Heq. destruct (Z.min_spec x a) as [[_ ->]|[_ ->]];
        [now left | now right; left].
    + intros y Hy.
      assert (Hm : fold_left Z.min l (Z.min x a) <= Z.min x a)
        by (apply Hle; now left).
      destruct Hy as [<-|[<-|Hy]]; [lia|lia|].
      apply Hle. now right.
Qed.

Lemma fold_max_spec (l : list Z) (x : Z) :
  In (fold_left Z.max l x) (x :: l) /\
  forall y, In y (x :: l) -> y <= fold_left Z.max l x.
Proof.
  revert x. induction l as [|a l IH]; intros x; cbn [fold_left].
  - split; [now left|]. intros y [<-|[]]. lia.
  - destruct (IH (Z.max x a)) as [Hin Hle]. split.
    + destruct Hin as [Heq|Hin]; [|now right; right].
      rewrite <- Heq. destruct (Z.max_spec x a) as [[_ ->]|[_ ->]];
        [now right; left | now left].
    + intros y Hy.
      assert (Hm : Z.max x a <= fold_left Z.max l (Z.max x a))
        by (apply Hle; now left).
      destruct Hy as [<-|[<-|Hy]]; [lia|lia|].
      apply Hle. now right.
Qed.

(** X12.  For a group with at least one car whose title status is [clean
    vehicle] the line of the brand statistics exists.  Its count is the
    number of such cars, and its minimum and its maximum are prices of such
    cars and bound the price of each of them. *)
Theorem brand_statistics_bounds (cars : list car) :
  List.filter (fun c => String.eqb (title_status c) "clean vehicle") cars
  <> [] ->
  exists line, brand_statistics cars = Ok (Some line) /\
    stat_count line
    = length (List.filter
                (fun c => String.eqb (title_status c) "clean vehicle") cars) /\
    (exists c, In c cars /\ title_status c = "clean vehicle" /\
       price c = min_price line) /\
    (exists c, In c cars /\ title_status c = "clean vehicle" /\
       price c = max_price line) /\
    (forall c, In c cars -> title_status c = "clean vehicle" ->
       min_price line <= price c <= max_price line).
Proof.
  change (fun c : car => String.eqb (title_status c) "clean vehicle")
    with is_clean.
  assert (Hmember : forall c, In c (List.filter is_clean cars) <->
            In c cars /\ title_status c = "clean vehicle").
  { intros c. rewrite filter_In. unfold is_clean.
    now rewrite String.eqb_eq. }
  revert Hmember. unfold brand_statistics.
  destruct (List.filter is_clean cars) as [|c0 clean] eqn:Hclean;
    [congruence|]. intros Hmember _.
  rewrite int_truediv_ok by (cbn [List.map length]; lia).
  cbn [mbind result_bind List.map py_min py_max].
  eexists. split; [reflexivity|].
  cbn [stat_count min_price max_price avg_price].
  set (prices := List.map price clean).
  destruct (fold_min_spec prices (price c0)) as [Hmin_in Hmin_le].
  destruct (fold_max_spec prices (price c0)) as [Hmax_in Hmax_le].
  change (price c0 :: prices) with (List.map price (c0 :: clean)) in *.
  apply in_map_iff in Hmin_in as (cmin & Hcmin & Hin_min).
  apply in_map_iff in Hmax_in as (cmax & Hcmax & Hin_max).
  apply Hmember in Hin_min as [Hin_min Hclean_min].
  apply Hmember in Hin_max as [Hin_max Hclean_max].
  split; [reflexivity|]. split; [eauto|]. split; [eauto|].
  intros c Hc Htitle.
  assert (Hin : In (price c) (List.map price (c0 :: clean)))
    by (apply in_map, Hmember; auto).
  split; auto.
Qed.

(** ** The table of brand statistics *)

Lemma ascii_compare_refl (a : ascii) : Ascii.compare a a = Eq.
Proof. unfold Ascii.compare. apply N.compare_refl. Qed.

Lemma string_compare_lt_trans (a b c : string) :
  String.compare a b = Lt -> String.compare b c = Lt ->
  String.compare a c = Lt.
Proof.
  revert b c. induction a as [|x a IH]; intros [|y b] [|z c]; cbn;
    try discriminate; auto.
  destruct (Ascii.compare x y) eqn:Hxy; try discriminate;
    destruct (Ascii.compare y z) eqn:Hyz; try discriminate.
  - apply Ascii.compare_eq_iff in Hxy as ->.
    apply Ascii.compare_eq_iff in Hyz as ->.
    rewrite ascii_compare_refl. apply IH.
  - apply Ascii.compare_eq_iff in Hxy as ->. now rewrite Hyz.
  - apply Ascii.compare_eq_iff in Hyz as <-. now rewrite Hxy.
  - intros _ _. unfold Ascii.compare in *.
    apply N.compare_lt_iff in Hxy, Hyz.
    now rewrite (proj2 (N.compare_lt_iff _ _) (N.lt_trans _ _ _ Hxy Hyz)).
Qed.

#[export] Instance string_le_trans : Transitive string_le.
Proof.
  intros a b c. unfold string_le, String.leb. intros Hab Hbc.
  destruct (String.compare a b) eqn:Eab; try discriminate.
  - now apply String.compare_eq_iff in Eab as ->.
  - destruct (String.compare b c) eqn:Ebc; try discriminate.
    + apply String.compare_eq_iff in Ebc as <-. now rewrite Eab.
    + now rewrite (string_compare_lt_trans a b c).
Qed.

#[export] Instance string_le_total : Total string_le.
Proof.
  intros a b. unfold string_le.
  destruct (String.leb_total a b); auto.
Qed.

Lemma sorted_keys_spec {V : Type} (d : gmap string V) :
  StronglySorted string_le (sorted_keys d) /\
  NoDup (sorted_keys d) /\
  forall key, In key (sorted_keys d) <-> is_Some (d !! key).
Proof.
  unfold sorted_keys.
  pose proof (merge_sort_Permutation string_le (elements (dom d))) as Hperm.
  split; [|split].
  - apply StronglySorted_merge_sort; apply _.
  - rewrite Hperm. apply NoDup_elements.
  - intros key. rewrite <- list_elem_of_In, Hperm, elem_of_elements.
    apply elem_of_dom.
Qed.





(** ** The listing of [display_results] *)

Lemma display_cars_spec (cars : list car) :
  exists lines, display_cars cars = Ok lines /\
    List.map fst lines = cars /\
    forall c v, In (c, v) lines -> (is_Some v <-> year c < 2025).
Proof.
  induction cars as [|c cars (lines & IH & Hfst & Hval)].
  { exists []. split; [reflexivity|]. split; [reflexivity|].
    intros c v []. }
  cbn [display_cars]. cbv zeta. rewrite IH.
  destruct (Z.ltb_spec 0 (2025 - year c)) as [Hage|Hage].
  - rewrite int_truediv_ok by lia. cbn [mbind result_bind].
    eexists. split; [reflexivity|]. cbn [List.map fst].
    split; [now rewrite Hfst|].
    intros c' v [[= <- <-]|Hin]; [|now apply Hval].
    split; [lia|eauto].
  - cbn [mbind result_bind].
    eexists. split; [reflexivity|]. cbn [List.map fst].
    split; [now rewrite Hfst|].
    intros c' v [[= <- <-]|Hin]; [|now apply Hval].
    split; [intros [? [=]]|lia].
Qed.

(** X14.  For a list of cars that is not empty and a limit that is not
    negative, [display_results] lists the first [limit] cars of the list in
    the order of the list (all of them if there are fewer), each with a
    price per year of age exactly when its model year is before 2025.  The
    number of listed cars and the number reported as further available add
    up to the length of the list; that number is reported exactly when the
    list is longer than the limit, and the summary is printed exactly when
    there are two cars or more, with the length of the list as its
    count. *)
Theorem display_results_listing (cars : list car) (limit : Z) :
  cars <> [] -> 0 <= limit ->
  exists top more summary,
    display_results cars limit = Ok (Listing top more summary) /\
    List.map fst top = firstn (Z.to_nat limit) cars /\
    (forall c v, In (c, v) top -> (is_Some v <-> year c < 2025)) /\
    Z.of_nat (length top) + default 0 more = Z.of_nat (length cars) /\
    (more = None <-> Z.of_nat (length cars) <= limit) /\
    (summary = None <-> length cars = 1%nat) /\
    forall n avg, summary = Some (n, avg) -> n = length cars.
Proof.
  intros Hcars Hlimit. unfold display_results.
  destruct cars as [|c0 cars']; [congruence|].
  set (cars := c0 :: cars') in *.
  assert (Hlen : 0 < Z.of_nat (length cars)) by (cbn [cars length]; lia).
  destruct (display_cars_spec
              (slice_to cars (Z.min limit (Z.of_nat (length cars)))))
    as (top & Htop & Hfst & Hval).
  rewrite Htop. cbn [mbind result_bind].
  assert (Hslice : slice_to cars (Z.min limit (Z.of_nat (length cars)))
                   = firstn (Z.to_nat limit) cars).
  { unfold slice_to.
    destruct (Z.ltb_spec (Z.min limit (Z.of_nat (length cars))) 0); [lia|].
    destruct (Z.min_spec limit (Z.of_nat (length cars))) as [[_ ->]|[Hge ->]];
      [reflexivity|].
    rewrite Nat2Z.id, firstn_all. symmetry. apply firstn_all2. lia. }
  assert (Htoplen : Z.of_nat (length top)
                    = Z.min limit (Z.of_nat (length cars))).
  { rewrite <- (length_map fst top), Hfst, Hslice, length_firstn. lia. }
  assert (Hsummary : exists summary,
    (if (1 <? length cars)%nat
     then avg_price ← int_truediv (sum (List.map price cars))
                        (Z.of_nat (length (List.map price cars)));
          Ok (Some (length cars, avg_price))
     else Ok None) = Ok summary /\
    (summary = None <-> length cars = 1%nat) /\
    forall n avg, summary = Some (n, avg) -> n = length cars).
  { destruct (Nat.ltb_spec 1 (length cars)) as [Hmany|Hone].
    - rewrite int_truediv_ok by (rewrite length_map; lia).
      cbn [mbind result_bind]. eexists. split; [reflexivity|].
      split; [split; [discriminate|lia]|].
      now intros n avg [= <- <-].
    - exists None. split; [reflexivity|].
      split; [split; [lia|reflexivity]|discriminate]. }
  destruct Hsummary as (summary & -> & Hnone & Hsome).
  cbn [mbind result_bind].
  eexists top, _, summary. split; [reflexivity|].
  rewrite <- Hslice. split; [assumption|]. split; [assumption|].
  split; [|split; [|split; assumption]].
  - destruct (Z.ltb_spec (Z.min limit (Z.of_nat (length cars)))
                (Z.of_nat (length cars))); cbn [from_option id]; lia.
  - destruct (Z.ltb_spec (Z.min limit (Z.of_nat (length cars)))
                (Z.of_nat (length cars))); split; try discriminate;
      try reflexivity; lia.
Qed.

(** X15.  With a negative limit [display_results] leaves out the last
    [- limit] cars of the list, and the number of cars that it reports as
    further available, the length of the list minus the limit, is larger
    than the whole list. *)
Theorem display_results_negative_limit (cars : list car) (limit : Z) :
  cars <> [] -> limit < 0 ->
  exists top summary,
    display_results cars limit
    = Ok (Listing top (Some (Z.of_nat (length cars) - limit)) summary) /\
    List.map fst top = firstn (length cars - Z.to_nat (- limit)) cars /\
    Z.of_nat (length cars) < Z.of_nat (length cars) - limit.
Proof.
  intros Hcars Hlimit. unfold display_results.
  destruct cars as [|c0 cars']; [congruence|].
  set (cars := c0 :: cars') in *.
  destruct (display_cars_spec
              (slice_to cars (Z.min limit (Z.of_nat (length cars)))))
    as (top & Htop & Hfst & _).
  rewrite Htop. cbn [mbind result_bind].
  assert (Hmin : Z.min limit (Z.of_nat (length cars)) = limit) by lia.
  rewrite Hmin in *.
  destruct (Z.ltb_spec limit (Z.of_nat (length cars))); [|lia].
  assert (Hsummary : exists summary,
    (if (1 <? length cars)%nat
     then avg_price ← int_truediv (sum (List.map price cars))
                        (Z.of_nat (length (List.map price cars)));
          Ok (Some (length cars, avg_price))
     else Ok None) = Ok summary).
  { destruct (1 <? length cars)%nat; [|eexists; reflexivity].
    rewrite int_truediv_ok by (rewrite length_map; cbn [cars length]; lia).
    eexists. reflexivity. }
  destruct Hsummary as (summary & ->). cbn [mbind result_bind].
  exists top, summary. split; [reflexivity|]. split; [|lia].
  rewrite Hfst. unfold slice_to.
  destruct (Z.ltb_spec limit 0); [|lia].
  f_equal. lia.
Qed.

(** ** The prompts *)

Section PromptProperties.
Context `{Builtins}.

Lemma ask_brand_spec (self : CarRankingSystem) (brands : list string)
    (stdin : list string) :
  exists outcome used left_over,
    ask_brand self brands stdin = (outcome, left_over) /\
    stdin = used ++ left_over /\
    match outcome with
    | Ok (Some b) =>
        exists line n, last used = Some line /\
          int_of_string (str_strip line) = Some n /\
          1 <= n <= Z.of_nat (length brands) /\
          nth_error brands (Z.to_nat (n - 1)) = Some b
    | Ok None =>
        exists line, last used = Some line /\
          str_lower (str_strip line) = "q"
    | Raise e => e = EOFError /\ left_over = []
    end.
Proof.
  induction stdin as [|line rest (outcome & used & left_over & IH & Hused & Hout)].
  { exists (Raise EOFError), [], []. repeat split. }
  assert (Hnext : exists used',
            line :: rest = used' ++ left_over /\
            match outcome with
            | Ok (Some b) =>
                exists line n, last used' = Some line /\
                  int_of_string (str_strip line) = Some n /\
                  1 <= n <= Z.of_nat (length brands) /\
                  nth_error brands (Z.to_nat (n - 1)) = Some b
            | Ok None =>
                exists line, last used' = Some line /\
                  str_lower (str_strip line) = "q"
            | Raise e => e = EOFError /\ left_over = []
            end).
  { exists (line :: used). split; [now rewrite Hused|].
    destruct outcome as [[b|]|e]; [| |assumption].
    - destruct Hout as (l & n & Hlast & Hrest).
      exists l, n. split; [|assumption].
      rewrite last_cons, Hlast. reflexivity.
    - destruct Hout as (l & Hlast & Hrest).
      exists l. split; [|assumption].
      rewrite last_cons, Hlast. reflexivity. }
  destruct Hnext as (used' & Hused' & Hout').
  cbn [ask_brand]. cbv zeta.
  destruct (String.eqb_spec (str_lower (str_strip line)) "q") as [Hq|Hq].
  { exists (Ok None), [line], rest. repeat split. exists line. now split. }
  destruct (int_of_string (str_strip line)) as [n|] eqn:Hint.
  2: { exists outcome, used', left_over. now rewrite IH. }
  destruct (Z.eqb_spec n (Z.of_nat (length brands) + 1)) as [Hstats|Hstats].
  { destruct (brand_lines_ok (cars_by_brand self)
                (sorted_keys (cars_by_brand self))) as [lines Hlines].
    unfold _show_brand_statistics. rewrite Hlines.
    exists outcome, used', left_over. now rewrite IH. }
  destruct (Z.leb_spec 1 n) as [Hlo|Hlo]; cbn [andb].
  2: { exists outcome, used', left_over. now rewrite IH. }
  destruct (Z.leb_spec n (Z.of_nat (length brands))) as [Hhi|Hhi].
  2: { exists outcome, used', left_over. now rewrite IH. }
  destruct (nth_error brands (Z.to_nat (n - 1))) as [b|] eqn:Hnth.
  - exists (Ok (Some b)), [line], rest. repeat split.
    exists line, n. repeat split; assumption || lia.
  - apply nth_error_None in Hnth. lia.
Qed.

(** X16.  [get_user_brand] reads lines until one of them settles the
    choice and leaves the rest of the input untouched.  A brand that it
    returns is a key of the index, the one at the place that the last line
    read names in the sorted list of brands.  It returns [None] without
    reading anything when the index is empty, and otherwise only after a
    line that says [q]; the only exception that leaves it is the
    [EOFError] of an input that ends before the choice is settled. *)
Theorem get_user_brand_outcome (self : CarRankingSystem)
    (stdin : list string) :
  exists outcome used left_over,
    get_user_brand self stdin = (outcome, left_over) /\
    stdin = used ++ left_over /\
    match outcome with
    | Ok (Some b) =>
        is_Some (cars_by_brand self !! b) /\
        exists line n, last used = Some line /\
          int_of_string (str_strip line) = Some n /\
          nth_error (sorted_keys (cars_by_brand self)) (Z.to_nat (n - 1))
          = Some b
    | Ok None =>
        (cars_by_brand self = ∅ /\ used = []) \/
        (cars_by_brand self <> ∅ /\
         exists line, last used = Some line /\
           str_lower (str_strip line) = "q")
    | Raise e =>
        e = EOFError /\ left_over = [] /\ cars_by_brand self <> ∅
    end.
Proof.
  unfold get_user_brand.
  destruct (decide (cars_by_brand self = ∅)) as [Hempty|Hfull].
  { exists (Ok None), [], stdin. repeat split. now left. }
  destruct (ask_brand_spec self (sorted_keys (cars_by_brand self)) stdin)
    as (outcome & used & left_over & Hask & Hused & Hout).
  exists outcome, used, left_over. split; [assumption|]. split; [assumption|].
  destruct outcome as [[b|]|e].
  - destruct Hout as (line & n & Hlast & Hint & _ & Hnth).
    split; [|now exists line, n].
    apply (sorted_keys_spec (cars_by_brand self)).
    now apply nth_error_In in Hnth.
  - now right.
  - destruct Hout as [-> ->]. now repeat split.
Qed.

Lemma get_ranking_method_spec (stdin : list string) :
  exists outcome used left_over,
    get_ranking_method stdin = (outcome, left_over) /\
    stdin = used ++ left_over /\
    match outcome with
    | Ok (Some method) =>
        exists line, last used = Some line /\
          ranking_methods (str_strip line) = Some method
    | Ok None =>
        exists line, last used = Some line /\
          str_lower (str_strip line) = "q"
    | Raise e => e = EOFError /\ left_over = []
    end.
Proof.
  induction stdin as [|line rest (outcome & used & left_over & IH & Hused & Hout)].
  { exists (Raise EOFError), [], []. repeat split. }
  cbn [get_ranking_method]. cbv zeta.
  destruct (String.eqb_spec (str_lower (str_strip line)) "q") as [Hq|Hq].
  { exists (Ok None), [line], rest. repeat split. exists line. now split. }
  destruct (ranking_methods (str_strip line)) as [method|] eqn:Hmethod.
  { exists (Ok (Some method)), [line], rest. repeat split.
    exists line. now split. }
  exists outcome, (line :: used), left_over. split; [assumption|].
  split; [now rewrite Hused|].
  destruct outcome as [[method|]|e]; [| |assumption].
  - destruct Hout as (l & Hlast & Hrest). exists l. split; [|assumption].
    rewrite last_cons, Hlast. reflexivity.
  - destruct Hout as (l & Hlast & Hrest). exists l. split; [|assumption].
    rewrite last_cons, Hlast. reflexivity.
Qed.

Lemma ranking_methods_table (choice : string)
    (method : string * string * ranking_key * bool) :
  ranking_methods choice = Some method ->
  let '(_, _, key, reverse) := method in
  reverse = true <-> key = ByYear.
Proof.
  unfold ranking_methods.
  repeat (destruct (String.eqb choice _);
          [intros [= <-]; split; (reflexivity || discriminate)|]).
  discriminate.
Qed.

(** X17.  [get_ranking_method] skips every answer that neither quits nor
    names a method: after such answers it behaves as on the rest of the
    input.  Whatever the input, the only exception that leaves it is
    [EOFError] at the end of the input, a method that it returns is the
    entry of the table for the last line read, and that entry asks for a
    descending sort exactly when it ranks by year. *)
Theorem get_ranking_method_skips (bad rest : list string) :
  List.Forall not_a_method bad ->
  get_ranking_method (bad ++ rest) = get_ranking_method rest /\
  exists outcome used left_over,
    get_ranking_method (bad ++ rest) = (outcome, left_over) /\
    bad ++ rest = bad ++ used ++ left_over /\
    match outcome with
    | Ok (Some (name, description, key, reverse)) =>
        (exists line, last used = Some line /\
           ranking_methods (str_strip line)
           = Some (name, description, key, reverse)) /\
        (reverse = true <-> key = ByYear)
    | Ok None =>
        exists line, last used = Some line /\
          str_lower (str_strip line) = "q"
    | Raise e => e = EOFError /\ left_over = []
    end.
Proof.
  intros Hbad.
  assert (Hskip : get_ranking_method (bad ++ rest) = get_ranking_method rest).
  { induction Hbad as [|line bad [Hq Hnone] _ IH]; [reflexivity|].
    cbn [app get_ranking_method]. cbv zeta. now rewrite Hq, Hnone. }
  split; [assumption|]. rewrite Hskip.
  destruct (get_ranking_method_spec rest)
    as (outcome & used & left_over & Hget & Hused & Hout).
  exists outcome, used, left_over. split; [assumption|].
  split; [now rewrite Hused|].
  destruct outcome as [[[[[name description] key] reverse]|]|e];
    [|assumption|assumption].
  split; [assumption|].
  destruct Hout as (line & _ & Hmethod).
  apply (ranking_methods_table _ _ Hmethod).
Qed.
End PromptProperties.

(** ** The loader and the key functions of [code.py] *)

Section SimpleProperties.
Context `{Builtins}.

Lemma simple_convert_row_inv (r converted : row) :
  Simple.convert_row r = Ok converted ->
  exists vp fp p vm fm m,
    r !! "price" = Some vp /\ py_float vp = Ok fp /\ int_of_float fp = Ok p /\
    r !! "mileage" = Some vm /\ py_float vm = Ok fm /\
    int_of_float fm = Ok m /\
    converted = <["mileage" := PInt m]> (<["price" := PInt p]> r).
Proof.
  unfold Simple.convert_row, getitem.
  destruct (r !! "price") as [vp|] eqn:Hvp; [|discriminate].
  cbn [mbind result_bind].
  destruct (py_float vp) as [fp|] eqn:Hfp; [|discriminate].
  cbn [mbind result_bind].
  destruct (int_of_float fp) as [p|] eqn:Hp; [|discriminate].
  cbn [mbind result_bind].
  rewrite lookup_insert_ne by discriminate.
  destruct (r !! "mileage") as [vm|] eqn:Hvm; [|discriminate].
  cbn [mbind result_bind].
  destruct (py_float vm) as [fm|] eqn:Hfm; [|discriminate].
  cbn [mbind result_bind].
  destruct (int_of_float fm) as [m|] eqn:Hm; [|discriminate].
  cbn [mbind result_bind]. intros [= <-].
  exists vp, fp, p, vm, fm, m. repeat split; assumption.
Qed.

(** X19.  A row that the loop of [code.py] keeps had a price and a mileage
    that [float] and then [int] accept; in the kept row these two columns
    hold the integers, whatever their sign, and every other column is as
    it was in the file. *)
Theorem simple_convert_row_columns (r converted : row) :
  Simple.convert_row r = Ok converted ->
  exists vp fp p vm fm m,
    r !! "price" = Some vp /\ py_float vp = Ok fp /\ int_of_float fp = Ok p /\
    r !! "mileage" = Some vm /\ py_float vm = Ok fm /\
    int_of_float fm = Ok m /\
    converted !! "price" = Some (PInt p) /\
    converted !! "mileage" = Some (PInt m) /\
    (forall key, key <> "price" -> key <> "mileage" ->
       converted !! key = r !! key) /\
    dom converted = dom r.
Proof.
  intros (vp & fp & p & vm & fm & m & Hvp & Hfp & Hp & Hvm & Hfm & Hm & ->)
    %simple_convert_row_inv.
  exists vp, fp, p, vm, fm, m. repeat (split; [assumption|]).
  split; [|split; [|split]].
  - rewrite lookup_insert_ne by discriminate. apply lookup_insert_eq.
  - apply lookup_insert_eq.
  - intros key Hprice Hmileage.
    now rewrite !lookup_insert_ne by congruence.
  - rewrite dom_insert_lookup_L
      by (rewrite lookup_insert_ne by discriminate; eauto).
    apply dom_insert_lookup_L. eauto.
Qed.

Lemma simple_read_rows_spec (data rows : list row) :
  simple_rows_load rows ->
  Simple.read_rows data rows = Ok (data ++ simple_converted rows).
Proof.
  revert data. induction rows as [|r rows IH]; intros data Hrows.
  { cbn. now rewrite app_nil_r. }
  assert (Hrest : simple_rows_load rows)
    by (intros r' Hr'; apply Hrows; now right).
  cbn [Simple.read_rows simple_converted].
  destruct (Hrows r (or_introl eq_refl)) as [[converted ->]| ->].
  - rewrite IH by assumption. now rewrite <- app_assoc.
  - now apply IH.
Qed.

Lemma simple_read_rows_aborts (data good rest : list row) (bad : row)
    (e : exn) :
  simple_rows_load good ->
  Simple.convert_row bad = Raise e -> e <> ValueError ->
  Simple.read_rows data (good ++ bad :: rest) = Raise e.
Proof.
  revert data. induction good as [|r good IH]; intros data Hgood Hbad He.
  { cbn [app Simple.read_rows]. rewrite Hbad. now destruct e. }
  assert (Hrest : simple_rows_load good)
    by (intros r' Hr'; apply Hgood; now right).
  cbn [app Simple.read_rows].
  destruct (Hgood r (or_introl eq_refl)) as [[converted ->]| ->];
    now apply IH.
Qed.

Lemma simple_organize_spec (index : gmap pyval (list row))
    (cars : list row) :
  (forall c, In c cars -> is_Some (c !! "brand")) ->
  exists index', Simple.organize index cars = Ok index' /\
    forall b, default [] (index' !! b)
      = default [] (index !! b)
        ++ List.filter (fun c => bool_decide (c !! "brand" = Some b)) cars.
Proof.
  revert index. induction cars as [|c cars IH]; intros index Hbrand.
  { exists index. split; [reflexivity|]. intros b.
    now rewrite app_nil_r. }
  destruct (Hbrand c (or_introl eq_refl)) as [bc Hbc].
  cbn [Simple.organize]. unfold getitem. rewrite Hbc.
  cbn [mbind result_bind].
  destruct (IH (<[bc := default [] (index !! bc) ++ [c]]> index))
    as (index' & -> & Hgroups).
  { intros c' Hc'. apply Hbrand. now right. }
  exists index'. split; [reflexivity|]. intros b.
  rewrite Hgroups. cbn [List.filter]. rewrite Hbc.
  destruct (decide (bc = b)) as [->|Hne].
  - rewrite lookup_insert_eq. cbn [from_option id].
    rewrite bool_decide_eq_true_2 by reflexivity.
    now rewrite <- app_assoc.
  - rewrite lookup_insert_ne by assumption.
    rewrite bool_decide_eq_false_2 by congruence. reflexivity.
Qed.

(** X20.  When no row of the file raises anything but [ValueError] and
    every kept row has a brand, [load_data] of [code.py] returns: the list
    of cars is replaced by the kept rows in the order of the file, and the
    group of every brand in the index becomes its earlier group followed by
    the kept rows of that brand in the order of the file. *)
Theorem simple_load_data_outcome (g : Simple.globals) (rows : list row) :
  simple_rows_load rows ->
  (forall c, In c (simple_converted rows) -> is_Some (c !! "brand")) ->
  exists index,
    Simple.load_data g (Some rows)
    = Ok {| Simple.cars_data := simple_converted rows;
            Simple.cars_by_brand := index |} /\
    forall b, default [] (index !! b)
      = default [] (Simple.cars_by_brand g !! b)
        ++ List.filter (fun c => bool_decide (c !! "brand" = Some b))
             (simple_converted rows).
Proof.
  intros Hrows Hbrand. unfold Simple.load_data.
  rewrite simple_read_rows_spec by assumption. cbn [app mbind result_bind].
  destruct (simple_organize_spec (Simple.cars_by_brand g)
              (simple_converted rows) Hbrand) as (index & -> & Hgroups).
  exists index. split; [reflexivity|assumption].
Qed.

(** X21.  A row without a price column is not skipped by the loader of
    [code.py]: its conversion raises [KeyError], which the loop does not
    catch, and when the rows before it raise nothing but [ValueError] the
    whole of [load_data] ends with that [KeyError]. *)
Theorem simple_load_data_missing_price (g : Simple.globals)
    (good rest : list row) (bad : row) :
  simple_rows_load good -> bad !! "price" = None ->
  Simple.convert_row bad = Raise KeyError /\
  Simple.load_data g (Some (good ++ bad :: rest)) = Raise KeyError.
Proof.
  intros Hgood Hprice.
  assert (Hbad : Simple.convert_row bad = Raise KeyError).
  { unfold Simple.convert_row, getitem. now rewrite Hprice. }
  split; [assumption|]. unfold Simple.load_data.
  now rewrite (simple_read_rows_aborts [] good rest bad KeyError).
Qed.

(** X22.  On a car that [code.py] has loaded from a file the keys for
    price and mileage are the converted integers, and the key for year
    never returns a value: the year is still as the file had it, so its
    negation raises [TypeError], or [KeyError] when the file has no such
    column. *)
Theorem simple_keys_of_loaded_car (r converted : row) :
  csv_row r -> Simple.convert_row r = Ok converted ->
  (exists p, SimpleKeys.get_price converted = Ok (PInt p)) /\
  (exists m, SimpleKeys.get_mileage converted = Ok (PInt m)) /\
  (SimpleKeys.get_year converted
   = Raise (match r !! "year" with
            | Some _ => TypeError
            | None => KeyError
            end)).
Proof.
  intros Hcsv (vp & fp & p & vm & fm & m & _ & _ & _ & _ & _ & _ & ->)
    %simple_convert_row_inv.
  unfold SimpleKeys.get_price, SimpleKeys.get_mileage, SimpleKeys.get_year,
    getitem.
  split; [|split].
  - exists p. rewrite lookup_insert_ne by discriminate.
    now rewrite lookup_insert_eq.
  - exists m. now rewrite lookup_insert_eq.
  - rewrite !lookup_insert_ne by discriminate.
    destruct (r !! "year") as [[s|z|]|] eqn:Hyear; try reflexivity.
    now destruct (Hcsv "year" z).
Qed.

(** X23.  [get_ranking_method] of [code.py] reads lines, from the front of
    the input, until one of them is a number from 1 to 3, and returns the
    name that goes with that number; lines that are no number, or another
    number, are passed over.  The only exception that leaves it is the
    [EOFError] of an input that ends first. *)
Theorem simple_get_ranking_method_outcome (stdin : list string) :
  exists outcome used left_over,
    SimpleKeys.get_ranking_method stdin = (outcome, left_over) /\
    stdin = used ++ left_over /\
    match outcome with
    | Ok name =>
        exists line n, last used = Some line /\
          int_of_string line = Some n /\
          In (n, name) [(1, "price"); (2, "year"); (3, "mileage")]
    | Raise e => e = EOFError /\ left_over = []
    end.
Proof.
  induction stdin as [|line rest (outcome & used & left_over & IH & Hused & Hout)].
  { exists (Raise EOFError), [], []. repeat split. }
  assert (Hnext : exists used',
            line :: rest = used' ++ left_over /\
            match outcome with
            | Ok name =>
                exists line n, last used' = Some line /\
                  int_of_string line = Some n /\
                  In (n, name) [(1, "price"); (2, "year"); (3, "mileage")]
            | Raise e => e = EOFError /\ left_over = []
            end).
  { exists (line :: used). split; [now rewrite Hused|].
    destruct outcome as [name|e]; [|assumption].
    destruct Hout as (l & n & Hlast & Hrest).
    exists l, n. split; [|assumption].
    rewrite last_cons, Hlast. reflexivity. }
  destruct Hnext as (used' & Hused' & Hout').
  cbn [SimpleKeys.get_ranking_method].
  destruct (int_of_string line) as [n|] eqn:Hint.
  2: { exists outcome, used', left_over. now rewrite IH. }
  destruct (Z.eqb_spec n 1) as [->|H1].
  { exists (Ok "price"), [line], rest. repeat split.
    exists line, 1. repeat split; [assumption|]. now left. }
  destruct (Z.eqb_spec n 2) as [->|H2].
  { exists (Ok "year"), [line], rest. repeat split.
    exists line, 2. repeat split; [assumption|]. right. now left. }
  destruct (Z.eqb_spec n 3) as [->|H3].
  { exists (Ok "mileage"), [line], rest. repeat split.
    exists line, 3. repeat split; [assumption|]. right. right. now left. }
  exists outcome, used', left_over. now rewrite IH.
Qed.
End SimpleProperties.

(** ** Ranking followed by listing, as [run] chains them *)

Lemma StronglySorted_app_across {A : Type} (R : A -> A -> Prop)
    (l k : list A) :
  StronglySorted R (l ++ k) ->
  forall x y, In x l -> In y k -> R x y.
Proof.
  induction l as [|a l IH]; intros Hsorted x y Hx Hy; [destruct Hx|].
  cbn [app] in Hsorted. apply StronglySorted_inv in Hsorted as [Hrest Ha].
  destruct Hx as [<-|Hx]; [|now apply IH].
  apply (proj1 (List.Forall_forall _ _) Ha). apply in_or_app. now right.
Qed.

Lemma display_results_top (cars : list car) (limit : Z) :
  cars <> [] -> 0 <= limit ->
  exists top more summary,
    display_results cars limit = Ok (Listing top more summary) /\
    List.map fst top = firstn (Z.to_nat limit) cars.
Proof.
  intros Hcars Hlimit.
  destruct (display_results_ok cars limit) as [screen Hscreen].
  revert Hscreen. unfold display_results.
  destruct cars as [|c0 cars']; [congruence|].
  set (cars := c0 :: cars') in *.
  destruct (display_cars_spec
              (slice_to cars (Z.min limit (Z.of_nat (length cars)))))
    as (top & -> & Hfst & _).
  cbn [mbind result_bind].
  assert (Hslice : slice_to cars (Z.min limit (Z.of_nat (length cars)))
                   = firstn (Z.to_nat limit) cars).
  { unfold slice_to.
    destruct (Z.ltb_spec (Z.min limit (Z.of_nat (length cars))) 0); [lia|].
    destruct (Z.min_spec limit (Z.of_nat (length cars))) as [[_ ->]|[Hge ->]];
      [reflexivity|].
    rewrite Nat2Z.id, firstn_all. symmetry. apply firstn_all2. lia. }
  rewrite Hslice in Hfst.
  destruct (if (1 <? length cars)%nat then _ else _) as [summary|e];
    cbn [mbind result_bind]; [|discriminate].
  intros _. eauto.
Qed.

Section RankedListing.
Context {K : Type} `{PyCmp K} (comparable : K -> Prop).
Context `{!PyCmpLaws comparable}.
Variable key_func : car -> K.

(** X24.  Sorting and then listing, as [run] does: for cars whose keys can
    be compared and a limit that is not negative, the sort returns and
    [display_results] lists the first [limit] cars of the sorted list.
    These are cars of the input, as many as the limit or the whole input
    allows, in the requested order, and every car that is listed comes, in
    that order, no later than every car that is left out. *)
Theorem listing_shows_best (reverse : bool) (cars : list car)
    (limit : Z) :
  keys_in comparable key_func cars -> cars <> [] -> 0 <= limit ->
  exists sorted top more summary left_out,
    quicksort cars key_func reverse = Some sorted /\
    display_results sorted limit = Ok (Listing top more summary) /\
    Permutation cars (List.map fst top ++ left_out) /\
    Z.of_nat (length top) = Z.min limit (Z.of_nat (length cars)) /\
    StronglySorted (in_order key_func reverse) (List.map fst top) /\
    forall shown hidden, In shown (List.map fst top) -> In hidden left_out ->
      in_order key_func reverse shown hidden.
Proof.
  intros Hkeys Hcars Hlimit.
  destruct (quicksort_perm_sorted comparable key_func reverse cars Hkeys)
    as (sorted & Hsort & Hperm & Hsorted).
  assert (Hne : sorted <> []).
  { intros ->. symmetry in Hperm. apply Permutation_nil in Hperm.
    congruence. }
  destruct (display_results_top sorted limit Hne Hlimit)
    as (top & more & summary & Hshow & Hfst).
  exists sorted, top, more, summary, (skipn (Z.to_nat limit) sorted).
  pose proof (firstn_skipn (Z.to_nat limit) sorted) as Hsplit.
  rewrite <- Hfst in Hsplit.
  split; [assumption|]. split; [assumption|]. split; [|split; [|split]].
  - now rewrite Hsplit.
  - rewrite <- (length_map fst top), Hfst, length_firstn.
    rewrite <- (Permutation_length Hperm). lia.
  - rewrite <- Hsplit in Hsorted.
    revert Hsorted. generalize (List.map fst top) as shown.
    induction shown as [|x shown IH]; intros Hs; [constructor|].
    cbn [app] in Hs. apply StronglySorted_inv in Hs as [Hrest Hx].
    constructor; [now apply IH|].
    apply List.Forall_forall. intros y Hy.
    apply (proj1 (List.Forall_forall _ _) Hx). apply in_or_app. now left.
  - rewrite <- Hsplit in Hsorted.
    now apply StronglySorted_app_across.
Qed.
End RankedListing.

(** ** The further properties on the sample data *)

Lemma camry_row_csv : csv_row camry_row.
Proof.
  intros key z. unfold camry_row.
  intros Hkey. apply elem_of_list_to_map_2 in Hkey.
  repeat (apply elem_of_cons in Hkey as [Hkey|Hkey]; [discriminate|]).
  now apply elem_of_nil in Hkey.
Qed.

Lemma csv_row_insert (r : row) (key s : string) :
  csv_row r -> csv_row (<[key := PStr s]> r).
Proof.
  intros Hcsv key' z. destruct (decide (key = key')) as [->|Hne].
  - rewrite lookup_insert_eq. discriminate.
  - rewrite lookup_insert_ne by assumption. apply Hcsv.
Qed.

Lemma sample_rows_do_not_raise :
  no_row_raises (H := Plain.builtins) [camry_row; corolla_row].
Proof.
  intros r [<-|[<-|[]]]; eexists; vm_compute; reflexivity.
Qed.

Lemma load_data_outcome_witness :
  cars_data (fst (load_data (H := Plain.builtins) init
                    (Some [camry_row; corolla_row])))
  = [camry; corolla] /\
  snd (load_data (H := Plain.builtins) init (Some [camry_row; corolla_row]))
  = true.
Proof.
  destruct (load_data_outcome (H := Plain.builtins) init
              [camry_row; corolla_row] sample_rows_do_not_raise)
    as (Hdata & Hflag & _).
  split.
  - rewrite Hdata. vm_compute. reflexivity.
  - apply Hflag. rewrite Hdata. vm_compute. discriminate.
Defined.

Lemma load_data_aborts_witness :
  load_data (H := Special.builtins) init
    (Some ([camry_row] ++ infinite_row :: [corolla_row]))
  = ({| cars_data := cars_data init
                     ++ accepted (H := Special.builtins) [camry_row];
        cars_by_brand := cars_by_brand init |}, false).
Proof.
  apply (load_data_aborts (H := Special.builtins) init [camry_row]
           infinite_row [corolla_row] OverflowError).
  - intros r [<-|[]]. eexists. vm_compute. reflexivity.
  - vm_compute. reflexivity.
Defined.

Lemma clean_row_data_raises_overflow_witness :
  _clean_row_data (H := Special.builtins) infinite_row = Raise OverflowError.
Proof.
  destruct (clean_row_data_raises_overflow (H := Special.builtins)
              infinite_row) as (_ & _ & Hraises).
  apply (Hraises (S754_finite false 8246337208320000 (-38)) 2020);
    try (vm_compute; reflexivity); try (vm_compute; discriminate).
  vm_compute. split; discriminate.
Defined.

Lemma clean_row_data_rejects_nan_witness :
  _clean_row_data (H := Special.builtins) nan_row = Ok None.
Proof.
  apply (clean_row_data_rejects_nan (H := Special.builtins) nan_row S754_nan).
  - apply csv_row_insert, camry_row_csv.
  - vm_compute. reflexivity.
  - now left.
Defined.

Lemma clean_row_data_missing_text_witness :
  _clean_row_data (H := Plain.builtins) (delete "brand" camry_row) = Ok None.
Proof.
  apply (clean_row_data_missing_text (H := Plain.builtins)
           (delete "brand" camry_row)).
  - reflexivity.
  - reflexivity.
  - intros key z. rewrite lookup_delete. case_decide; [discriminate|].
    apply camry_row_csv.
  - left. vm_compute. reflexivity.
Defined.

Lemma int_le_float_truncated_witness :
  int_le_float 1 (S754_finite false 3 (-1)) = (1 <=? 1) /\
  int_le_float 2 (S754_finite false 3 (-1)) = (2 <=? 1).
Proof.
  split; apply (int_le_float_truncated (S754_finite false 3 (-1)) 1);
    vm_compute; reflexivity.
Defined.

Lemma quicksort_idempotent_witness :
  quicksort [corolla; prius; camry] _get_price false
  = Some [corolla; prius; camry].
Proof.
  apply (quicksort_idempotent any_int _get_price false
           [corolla; prius; camry]).
  - intros x _. exact I.
  - repeat constructor.
Defined.

Lemma value_score_not_negative_witness :
  exists score,
    _get_value_score camry = Ok score /\
    not_nan score /\ float_lt score float_zero = false.
Proof.
  eexists. split; [vm_compute; reflexivity|].
  apply (value_score_not_negative camry).
  - vm_compute. discriminate.
  - vm_compute. reflexivity.
Defined.

Lemma brand_statistics_bounds_witness :
  exists line,
    brand_statistics [camry; corolla; prius] = Ok (Some line) /\
    stat_count line = 2%nat /\
    min_price line = 12000 /\ max_price line = 15000.
Proof.
  destruct (brand_statistics_bounds [camry; corolla; prius])
    as (line & Hline & Hcount & _ & _ & Hbounds).
  - vm_compute. discriminate.
  - exists line. split; [exact Hline|]. split; [exact Hcount|].
    vm_compute in Hline. injection Hline as <-. split; reflexivity.
Defined.

Lemma display_results_listing_witness :
  exists top more summary,
    display_results [corolla; camry; prius] 2 = Ok (Listing top more summary) /\
    List.map fst top = [corolla; camry] /\
    more = Some 1 /\
    exists avg, summary = Some (3%nat, avg).
Proof.
  destruct (display_results_listing [corolla; camry; prius] 2)
    as (top & more & summary & Hshow & Hfst & _ & Hcount & Hmore & Hsummary
        & Hn).
  - discriminate.
  - lia.
  - exists top, more, summary. split; [exact Hshow|]. split; [exact Hfst|].
    split.
    + destruct more as [k|].
      * f_equal.
        assert (Htop : List.map fst top = [corolla; camry]) by exact Hfst.
        rewrite <- (length_map fst top), Htop in Hcount.
        cbn [length from_option id] in Hcount. lia.
      * apply proj1 in Hmore. specialize (Hmore eq_refl).
        cbn [length] in Hmore. lia.
    + destruct summary as [[n avg]|].
      * exists avg. now rewrite (Hn n avg eq_refl).
      * apply proj1 in Hsummary. specialize (Hsummary eq_refl).
        discriminate.
Defined.

Lemma display_results_negative_limit_witness :
  exists top summary,
    display_results [corolla; camry; prius] (-1)
    = Ok (Listing top (Some 4) summary) /\
    List.map fst top = [corolla; camry].
Proof.
  destruct (display_results_negative_limit [corolla; camry; prius] (-1))
    as (top & summary & Hshow & Hfst & _).
  - discriminate.
  - lia.
  - exists top, summary. split; assumption.
Defined.

Lemma get_ranking_method_skips_witness :
  get_ranking_method (H := Plain.builtins) (["5"; "abc"] ++ ["2"; "1"])
  = get_ranking_method (H := Plain.builtins) ["2"; "1"].
Proof.
  apply (get_ranking_method_skips (H := Plain.builtins) ["5"; "abc"]
           ["2"; "1"]).
  repeat constructor.
Defined.

Lemma filter_cars_idempotent_witness :
  exists left_over,
    filter_cars (H := Plain.builtins)
      (with_group
         {| cars_data := [camry; corolla; prius];
            cars_by_brand := {[ "toyota" := [camry; corolla; prius] ]} |}
         "toyota" [corolla])
      "toyota" ["13000"; "2015"]
    = (with_group
         {| cars_data := [camry; corolla; prius];
            cars_by_brand := {[ "toyota" := [camry; corolla; prius] ]} |}
         "toyota" [corolla],
       Ok [corolla], left_over).
Proof.
  apply (filter_cars_idempotent (H := Plain.builtins)
           {| cars_data := [camry; corolla; prius];
              cars_by_brand := {[ "toyota" := [camry; corolla; prius] ]} |}
           "toyota" "13000" "2015" [] []).
  vm_compute. reflexivity.
Defined.

Lemma simple_convert_row_columns_witness :
  exists vp fp p vm fm m,
    camry_row !! "price" = Some vp /\
    py_float (H := Plain.builtins) vp = Ok fp /\ int_of_float fp = Ok p /\
    camry_row !! "mileage" = Some vm /\
    py_float (H := Plain.builtins) vm = Ok fm /\ int_of_float fm = Ok m /\
    camry_converted !! "price" = Some (PInt p) /\
    camry_converted !! "mileage" = Some (PInt m) /\
    (forall key, key <> "price" -> key <> "mileage" ->
       camry_converted !! key = camry_row !! key) /\
    dom camry_converted = dom camry_row.
Proof.
  apply (simple_convert_row_columns (H := Plain.builtins) camry_row
           camry_converted).
  vm_compute. reflexivity.
Defined.

Lemma camry_row_loads :
  simple_rows_load (H := Plain.builtins) [camry_row].
Proof.
  intros r [<-|[]]. left. exists camry_converted. vm_compute. reflexivity.
Qed.

Lemma simple_load_data_outcome_witness :
  exists index,
    Simple.load_data (H := Plain.builtins) simple_init (Some [camry_row])
    = Ok {| Simple.cars_data := simple_converted (H := Plain.builtins)
                                  [camry_row];
            Simple.cars_by_brand := index |} /\
    default [] (index !! PStr "Toyota") = [camry_converted].
Proof.
  destruct (simple_load_data_outcome (H := Plain.builtins) simple_init
              [camry_row] camry_row_loads) as (index & Hload & Hgroups).
  - intros c Hc. vm_compute in Hc. destruct Hc as [<-|[]].
    vm_compute. eauto.
  - exists index. split; [exact Hload|].
    rewrite Hgroups. vm_compute. reflexivity.
Defined.

Lemma simple_load_data_missing_price_witness :
  Simple.load_data (H := Plain.builtins) simple_init
    (Some ([camry_row] ++ delete "price" camry_row :: [corolla_row]))
  = Raise KeyError.
Proof.
  apply (simple_load_data_missing_price (H := Plain.builtins) simple_init
           [camry_row] [corolla_row] (delete "price" camry_row)).
  - exact camry_row_loads.
  - vm_compute. reflexivity.
Defined.

Lemma simple_keys_of_loaded_car_witness :
  SimpleKeys.get_year camry_converted = Raise TypeError.
Proof.
  apply (simple_keys_of_loaded_car (H := Plain.builtins) camry_row
           camry_converted).
  - exact camry_row_csv.
  - vm_compute. reflexivity.
Defined.

Lemma listing_shows_best_witness :
  exists sorted top more summary left_out,
    quicksort [camry; corolla; prius] _get_price false = Some sorted /\
    display_results sorted 2 = Ok (Listing top more summary) /\
    Permutation [camry; corolla; prius] (List.map fst top ++ left_out) /\
    Z.of_nat (length top) = 2.
Proof.
  destruct (listing_shows_best any_int _get_price false
              [camry; corolla; prius] 2)
    as (sorted & top & more & summary & left_out & Hsort & Hshow & Hperm
        & Hlen & _).
  - intros x _. exact I.
  - discriminate.
  - lia.
  - exists sorted, top, more, summary, left_out. repeat split; assumption.
Defined.
